(** * Qurro metadata utilities: a shallow embedding of [qurro/_metadata_utils.py]

    The Python module normalises metadata tables: it checks that row and
    column labels are unique, escapes column labels, finds the leading
    [#q2:] comment lines of a metadata file, loads a metadata file into a
    table of strings, and matches GNPS feature metadata rows (identified by
    numbers of reduced precision) with the full feature identifiers of a
    ranks table.

    Python [str] values are modelled as [string]: the text is ASCII text,
    one [ascii] per character.  Exceptions are values of [exn] carried by
    the [result] type, a [dict] is a [gmap], and a [float] is a
    [spec_float] (the IEEE 754 binary64 values of the standard library).
    [pd.read_csv] is a parameter of the two functions that call it. *)

From Stdlib Require Import ZArith String Ascii List Lia.
From Stdlib Require Import Floats.SpecFloat.
From stdpp Require Import base option list gmap strings pretty.

Local Open Scope string_scope.
Local Open Scope Z_scope.

(** ** Exceptions and results *)

(** The exceptions the module can raise.  [ValueError] carries its message;
    for the errors raised inside builtins ([float], tuple unpacking,
    [set_index]) the message is an abbreviation of the interpreter's. *)
Inductive exn : Type :=
| ValueError (msg : string)
| KeyError (key : string)
| IndexError (msg : string)
| FileNotFoundError (path : string).

Inductive result (A : Type) : Type :=
| OK (a : A)
| Raise (e : exn).
Arguments OK {A} a.
Arguments Raise {A} e.

Global Instance result_ret : MRet result := fun A a => OK a.

Global Instance result_bind : MBind result := fun A B f r =>
  match r with
  | OK a => f a
  | Raise e => Raise e
  end.

Definition is_ValueError {A : Type} (r : result A) : Prop :=
  exists msg, r = Raise (ValueError msg).

(** [for x in xs: body], where the body may raise. *)
Fixpoint for_each {A S : Type} (body : S -> A -> result S) (xs : list A) (st : S)
  : result S :=
  match xs with
  | [] => OK st
  | x :: rest => st' ← body st x; for_each body rest st'
  end.

(** ** Python builtins on strings *)

Module Builtins.

Definition chr (n : nat) : ascii := ascii_of_nat n.

(** The double quote and the backslash. *)
Definition dquote : ascii := chr 34.
Definition backslash : ascii := chr 92.

Definition str1 (c : ascii) : string := String c EmptyString.

(** [str.isspace] on one ASCII character, as [str.strip()] uses it:
    tab, line feed, vertical tab, form feed, carriage return, the four
    separators 0x1c..0x1f and the space. *)
Definition isspace (c : ascii) : bool :=
  let n := nat_of_ascii c in
  ((9 <=? n) && (n <=? 13) || (28 <=? n) && (n <=? 32))%nat.

(** C [isspace] in the C locale, as [float()] uses it on ASCII text. *)
Definition c_isspace (c : ascii) : bool :=
  let n := nat_of_ascii c in
  ((9 <=? n) && (n <=? 13) || (n =? 32))%nat.

Fixpoint lstrip (sp : ascii -> bool) (s : string) : string :=
  match s with
  | EmptyString => EmptyString
  | String c rest => if sp c then lstrip sp rest else s
  end.

Fixpoint rstrip (sp : ascii -> bool) (s : string) : string :=
  match s with
  | EmptyString => EmptyString
  | String c rest =>
      match rstrip sp rest with
      | EmptyString => if sp c then EmptyString else str1 c
      | r => String c r
      end
  end.

(** [s.strip()] *)
Definition strip (s : string) : string := rstrip isspace (lstrip isspace s).

(** [s.split(sep)] for a one-character separator: always at least one
    field. *)
Fixpoint split (sep : ascii) (s : string) : list string :=
  match s with
  | EmptyString => [EmptyString]
  | String c rest =>
      if Ascii.eqb c sep then EmptyString :: split sep rest
      else match split sep rest with
           | f :: fs => String c f :: fs
           | [] => [str1 c]
           end
  end.

(** [s.startswith(p)] *)
Definition startswith (s p : string) : bool := String.prefix p s.

(** The lines a text file object yields when iterated: each line keeps
    its terminating line feed; the last line may lack one. *)
Fixpoint iter_lines_from (cur s : string) : list string :=
  match s with
  | EmptyString => match cur with EmptyString => [] | _ => [cur] end
  | String c rest =>
      if Ascii.eqb c (chr 10) then (cur +:+ str1 c) :: iter_lines_from EmptyString rest
      else iter_lines_from (cur +:+ str1 c) rest
  end.

Definition iter_lines (s : string) : list string := iter_lines_from EmptyString s.

(** Universal newlines, as [open(path, "r")] translates them: CR LF and
    a lone CR both read as LF. *)
Fixpoint universal_newlines (s : string) : string :=
  match s with
  | EmptyString => EmptyString
  | String c rest =>
      if Ascii.eqb c (chr 13) then
        match rest with
        | String c' rest' =>
            if Ascii.eqb c' (chr 10) then String (chr 10) (universal_newlines rest')
            else String (chr 10) (universal_newlines rest)
        | EmptyString => str1 (chr 10)
        end
      else String c (universal_newlines rest)
  end.

Fixpoint drop_chars (n : nat) (s : string) : string :=
  match n, s with
  | O, _ => s
  | S n', String _ rest => drop_chars n' rest
  | S _, EmptyString => EmptyString
  end.

End Builtins.
Import Builtins.

(** ** Python floats: [float(s)] and [format(x, ".4f")] *)

Module PyFloat.

(** Round the non-negative rational [num / den] to the nearest integer,
    ties to even. *)
Definition round_half_even (num den : Z) : Z :=
  let q := num / den in
  let r := num mod den in
  match 2 * r ?= den with
  | Lt => q
  | Gt => q + 1
  | Eq => if Z.even q then q else q + 1
  end.

(** [num / den] divided by [2 ^ e], as a fraction of integers. *)
Definition scale2 (num den e : Z) : Z * Z :=
  if 0 <=? e then (num, den * 2 ^ e) else (num * 2 ^ (- e), den).

(** The binary64 value nearest to the positive rational [num / den]
    (round to nearest, ties to even; gradual underflow to subnormals and
    zero; overflow to infinity), with sign [s]. *)
Definition binary64_of_ratio (s : bool) (num den : Z) : spec_float :=
  let d := Z.log2 num - Z.log2 den in
  let '(n1, d1) := scale2 num den d in
  let flog := if d1 <=? n1 then d else d - 1 in
  let e := Z.max (flog - 52) (-1074) in
  let '(n2, d2) := scale2 num den e in
  let m := round_half_even n2 d2 in
  let '(m, e) := if m =? 2 ^ 53 then (2 ^ 52, e + 1) else (m, e) in
  if 971 <? e then S754_infinity s
  else match m with
       | Zpos p => S754_finite s p e
       | _ => S754_zero s
       end.

(** The binary64 value nearest to [m * 10 ^ e], for [0 <= m]. *)
Definition binary64_of_decimal (s : bool) (m e : Z) : spec_float :=
  if m =? 0 then S754_zero s
  else if 0 <=? e then binary64_of_ratio s (m * 10 ^ e) 1
  else binary64_of_ratio s m (10 ^ (- e)).

Definition is_digit (c : ascii) : bool :=
  let n := nat_of_ascii c in ((48 <=? n) && (n <=? 57))%nat.

Definition digit_val (c : ascii) : Z := Z.of_nat (nat_of_ascii c) - 48.

(** Reads a run of decimal digits: its value continuing from [acc], how
    many digits were read, and the rest of the text. *)
Fixpoint read_digits (s : string) (acc : Z) (n : nat) : Z * nat * string :=
  match s with
  | String c rest =>
      if is_digit c then read_digits rest (10 * acc + digit_val c) (S n)
      else (acc, n, s)
  | EmptyString => (acc, n, s)
  end.

(** An optional sign: [true] for a minus. *)
Definition read_sign (s : string) : bool * string :=
  match s with
  | String c rest =>
      if Ascii.eqb c "-" then (true, rest)
      else if Ascii.eqb c "+" then (false, rest)
      else (false, s)
  | EmptyString => (false, s)
  end.

Definition lower (c : ascii) : ascii :=
  let n := nat_of_ascii c in
  if ((65 <=? n) && (n <=? 90))%nat then chr (n + 32) else c.

Fixpoint lower_str (s : string) : string :=
  match s with
  | EmptyString => EmptyString
  | String c rest => String (lower c) (lower_str rest)
  end.

(** The digit separators of a numeric literal: every underscore must
    stand between two digits; they are removed.  [prev] is the character
    before [s]. *)
Fixpoint remove_underscores (prev : ascii) (s : string) : option string :=
  match s with
  | EmptyString => if Ascii.eqb prev "_" then None else Some EmptyString
  | String c rest =>
      if Ascii.eqb c "_" then
        if is_digit prev then remove_underscores c rest else None
      else if Ascii.eqb prev "_" && negb (is_digit c) then None
      else String c <$> remove_underscores c rest
  end.

(** The exponent part of a literal, if one is there: [e] or [E], an
    optional sign and at least one digit.  Without digits the [e] is not
    part of the number and is left unread. *)
Definition read_exponent (s : string) : Z * string :=
  match s with
  | String c rest =>
      if Ascii.eqb (lower c) "e" then
        let '(neg, rest1) := read_sign rest in
        let '(v, n, rest2) := read_digits rest1 0 0%nat in
        match n with
        | O => (0, s)
        | _ => (if neg then - v else v, rest2)
        end
      else (0, s)
  | EmptyString => (0, s)
  end.

(** A decimal literal without its sign: digits with an optional point and
    fraction, or a point and a fraction; then an optional exponent.  The
    whole text must be read. *)
Definition parse_decimal (neg : bool) (s : string) : option spec_float :=
  let '(ip, ni, rest) := read_digits s 0 0%nat in
  let '(m, nf, rest) :=
    match rest with
    | String c rest' =>
        if Ascii.eqb c "." then
          let '(m, nf, rest'') := read_digits rest' ip 0%nat in (m, nf, rest'')
        else (ip, 0%nat, rest)
    | EmptyString => (ip, 0%nat, rest)
    end in
  match (ni + nf)%nat with
  | O => None
  | _ =>
      let '(ex, rest) := read_exponent rest in
      match rest with
      | EmptyString => Some (binary64_of_decimal neg m (ex - Z.of_nat nf))
      | _ => None
      end
  end.

Definition parse_inf_or_nan (neg : bool) (s : string) : option spec_float :=
  let l := lower_str s in
  if String.eqb l "inf" || String.eqb l "infinity" then Some (S754_infinity neg)
  else if String.eqb l "nan" then Some S754_nan
  else None.

(** [float(s)] on ASCII text: [None] stands for the [ValueError] that
    [float] raises. *)
Definition float_of_str (s : string) : option spec_float :=
  s ← remove_underscores (chr 0) s;
  let s := rstrip c_isspace (lstrip c_isspace s) in
  let '(neg, body) := read_sign s in
  match parse_decimal neg body with
  | Some x => Some x
  | None => parse_inf_or_nan neg body
  end.

(** The four digits of [0 <= n < 10000]. *)
Definition digit_chr (d : Z) : ascii := chr (Z.to_nat (48 + d)).

Definition digits4 (n : Z) : string :=
  String (digit_chr (n / 1000 mod 10))
    (String (digit_chr (n / 100 mod 10))
       (String (digit_chr (n / 10 mod 10))
          (String (digit_chr (n mod 10)) EmptyString))).

Definition sign_str (s : bool) : string := if s then "-" else "".

(** The magnitude of a finite float times 10000, as a fraction. *)
Definition scaled_ratio (m : positive) (e : Z) : Z * Z :=
  scale2 (Z.pos m * 10000) 1 (- e).

(** The magnitude of a finite float in units of 1/10000, rounded to the
    nearest unit, ties to even. *)
Definition round4 (m : positive) (e : Z) : Z :=
  let '(num, den) := scaled_ratio m e in round_half_even num den.

(** ["{:.4f}".format(x)] *)
Definition format_4f (x : spec_float) : string :=
  match x with
  | S754_nan => "nan"
  | S754_infinity s => sign_str s +:+ "inf"
  | S754_zero s => sign_str s +:+ "0.0000"
  | S754_finite s m e =>
      let n := round4 m e in
      sign_str s +:+ pretty (n / 10000) +:+ "." +:+ digits4 (n mod 10000)
  end.

End PyFloat.
Import PyFloat.


(** ** Tables *)

(** A cell of a table read with [dtype=object]: a string or the missing
    value [np.NaN]. *)
Inductive cell : Type :=
| NaN
| Str (s : string).

Global Instance cell_eq_dec : EqDecision cell.
Proof. solve_decision. Defined.

(** A [pandas.DataFrame] with row labels of type [I]: the row labels, the
    column labels, and the cells, one list per column. *)
Record DataFrame (I : Type) : Type := mkDataFrame {
  index : list I;
  columns : list string;
  values : list (list cell)
}.
Arguments mkDataFrame {I} index columns values.
Arguments index {I} d.
Arguments columns {I} d.
Arguments values {I} d.

(** [df.shape] *)
Definition shape {I : Type} (df : DataFrame I) : nat * nat :=
  (length (index df), length (columns df)).

(** [Index.unique()]: the distinct labels, in order of first appearance. *)
Fixpoint unique_from {A : Type} `{EqDecision A} (seen l : list A) : list A :=
  match l with
  | [] => []
  | x :: rest =>
      if decide (x ∈ seen) then unique_from seen rest
      else x :: unique_from (x :: seen) rest
  end.

Definition unique {A : Type} `{EqDecision A} (l : list A) : list A := unique_from [] l.

(** ** [ensure_df_headers_unique] and [validate_df] *)

Definition ensure_df_headers_unique {I : Type} `{EqDecision I}
    (df : DataFrame I) (df_name : string) : result unit :=
  if negb (length (unique (index df)) =? fst (shape df))%nat then
    Raise (ValueError ("Indices of the " +:+ df_name +:+ " DataFrame are not unique."))
  else if negb (length (unique (columns df)) =? snd (shape df))%nat then
    Raise (ValueError ("Columns of the " +:+ df_name +:+ " DataFrame are not unique."))
  else OK tt.

(** The call of [logging.debug] has no effect on the result and is left
    out. *)
Definition validate_df {I : Type} `{EqDecision I}
    (df : DataFrame I) (name : string) (min_row_ct min_col_ct : Z) : result unit :=
  _ ← ensure_df_headers_unique df name;
  if Z.of_nat (fst (shape df)) <? min_row_ct then
    Raise (ValueError ("Less than " +:+ pretty min_row_ct +:+ " rows found in the "
                         +:+ name +:+ "."))
  else if Z.of_nat (snd (shape df)) <? min_col_ct then
    Raise (ValueError ("Less than " +:+ pretty min_col_ct +:+ " columns found in the "
                         +:+ name +:+ "."))
  else OK tt.

(** ** [fix_id] *)

(** The branches of the loop body of [fix_id]: the character appended to
    [new_id] for the character [c]. *)
Definition fix_char (c : ascii) : ascii :=
  if Ascii.eqb c "." then ":"%char
  else if Ascii.eqb c "]" then ")"%char
  else if Ascii.eqb c "[" then "("%char
  else if Ascii.eqb c "'" || Ascii.eqb c dquote || Ascii.eqb c backslash then "|"%char
  else c.

Fixpoint fix_id_loop (fid new_id : string) : string :=
  match fid with
  | EmptyString => new_id
  | String c rest => fix_id_loop rest (new_id +:+ str1 (fix_char c))
  end.

Definition fix_id (fid : string) : string := fix_id_loop fid "".

(** ** [get_q2_comment_lines] *)

(** What the caller passes as [md_file_loc]: an [io.StringIO] (its text and
    its read position) or the name of a file. *)
Inductive md_file_loc : Type :=
| StringIO (buf : string) (pos : nat)
| Path (path : string).

(** The files that can be opened and read as text, by name, with their
    text.  A name that is not in the map stands for a file that does not
    exist: of the errors of [open] only [FileNotFoundError] is modelled
    (a directory, a file without read permission or a file that is not
    text is outside of the model). *)
Abbreviation filesystem := (gmap string string).

(** The loop of [iterate_over_file_obj_lines] over the lines that the file
    object still yields, with the loop variables [q2_lines] and
    [line_num]. *)
Fixpoint iterate_over_file_obj_lines_loop
    (lines : list string) (q2_lines : list nat) (line_num : nat) : list nat :=
  match lines with
  | [] => q2_lines
  | line :: rest =>
      if (0 <? line_num)%nat then
        if startswith line "#q2:" then
          iterate_over_file_obj_lines_loop rest (q2_lines ++ [line_num])%list (S line_num)
        else q2_lines
      else iterate_over_file_obj_lines_loop rest q2_lines (S line_num)
  end.

Definition iterate_over_file_obj_lines (lines : list string) : list nat :=
  iterate_over_file_obj_lines_loop lines [] 0%nat.

(** The lines that iterating over the source yields: a [StringIO] is read
    from its position on, a file from its start. *)
Definition source_lines (fs : filesystem) (src : md_file_loc) : result (list string) :=
  match src with
  | StringIO buf pos => OK (iter_lines (drop_chars pos buf))
  | Path path =>
      match fs !! path with
      | Some text => OK (iter_lines (universal_newlines text))
      | None => Raise (FileNotFoundError path)
      end
  end.

(** [md_file_loc.seek(0)] *)
Definition seek0 (src : md_file_loc) : md_file_loc :=
  match src with
  | StringIO buf _ => StringIO buf 0
  | Path path => Path path
  end.

(** Returns the line numbers and the source as the call leaves it. *)
Definition get_q2_comment_lines (fs : filesystem) (src : md_file_loc)
  : result (list nat * md_file_loc) :=
  match src with
  | StringIO buf pos =>
      let q2_lines := iterate_over_file_obj_lines (iter_lines (drop_chars pos buf)) in
      OK (q2_lines, seek0 src)
  | Path path =>
      match fs !! path with
      | Some text => OK (iterate_over_file_obj_lines (iter_lines (universal_newlines text)), src)
      | None => Raise (FileNotFoundError path)
      end
  end.

(** ** [read_metadata_file] *)

(** [Series.str.strip()] on one cell: a missing value stays missing. *)
Definition str_strip (c : cell) : cell :=
  match c with
  | Str s => Str (strip s)
  | NaN => NaN
  end.

(** [df.where(df != "", np.NaN)] on one cell. *)
Definition where_not_empty (c : cell) : cell :=
  if bool_decide (c ≠ Str "") then c else NaN.

(** [Series.isna()] on one cell. *)
Definition isna (c : cell) : bool :=
  match c with
  | NaN => true
  | Str _ => false
  end.

(** Lines 160 to 190 of [read_metadata_file]: what is done to the table
    that [pd.read_csv] returned. *)
Definition normalize_metadata (metadata_df : DataFrame nat) : result (DataFrame cell) :=
  (* for column in metadata_df.columns: strip the column *)
  let metadata_df :=
    mkDataFrame (index metadata_df) (columns metadata_df)
                (map (map str_strip) (values metadata_df)) in
  let metadata_df :=
    mkDataFrame (index metadata_df) (columns metadata_df)
                (map (map where_not_empty) (values metadata_df)) in
  match columns metadata_df, values metadata_df with
  | _ :: other_columns, first_column :: other_values =>
      if existsb isna first_column then
        Raise (ValueError "Empty ID found in metadata file.")
      else OK (mkDataFrame first_column other_columns other_values)
  | _, _ => Raise (IndexError "index 0 is out of bounds for axis 0 with size 0")
  end.

Section Loader.

(** [pd.read_csv(md_file_loc, sep="\t", na_values=[""],
    keep_default_na=False, dtype=object, skiprows=q2_lines)]: every cell
    a string, or missing where the field was empty; the rows are
    labelled 0, 1, 2, ... *)
Variable pd_read_csv : filesystem -> md_file_loc -> list nat -> result (DataFrame nat).

Definition read_metadata_file (fs : filesystem) (src : md_file_loc)
  : result (DataFrame cell) :=
  '(q2_lines, src) ← get_q2_comment_lines fs src;
  metadata_df ← pd_read_csv fs src q2_lines;
  normalize_metadata metadata_df.

End Loader.

(** [replace_nan] on one cell, for a string [new_nan_val]. *)
Definition replace_nan_cell (new_nan_val : cell) (c : cell) : cell :=
  if negb (isna c) then c else new_nan_val.

Definition replace_nan {I : Type} (df : DataFrame I) (new_nan_val : cell) : DataFrame I :=
  mkDataFrame (index df) (columns df) (map (map (replace_nan_cell new_nan_val)) (values df)).

(** ** [escape_columns] *)

Fixpoint escape_columns_loop (cols new_cols : list string) : list string :=
  match cols with
  | [] => new_cols
  | col :: rest => escape_columns_loop rest (new_cols ++ [fix_id col])%list
  end.

Definition escape_columns {I : Type} `{EqDecision I} (df : DataFrame I)
  : result (DataFrame I) :=
  let new_cols := escape_columns_loop (columns df) [] in
  let df := mkDataFrame (index df) new_cols (values df) in
  _ ← ensure_df_headers_unique df "escape_columns() DataFrame";
  OK df.

(** ** [get_truncated_feature_id] *)

(** [list(map(float, fields))]: the first field that is not a float raises. *)
Fixpoint map_float (fields : list string) : result (list spec_float) :=
  match fields with
  | [] => OK []
  | f :: rest =>
      match float_of_str f with
      | Some x => xs ← map_float rest; OK (x :: xs)
      | None => Raise (ValueError ("could not convert string to float: '" +:+ f +:+ "'"))
      end
  end.

Definition get_truncated_feature_id (full_feature_id : string) : result string :=
  floats ← map_float (split ";" full_feature_id);
  match floats with
  | [mz; rt] => OK (format_4f mz +:+ ";" +:+ format_4f rt)
  | [] | [_] =>
      Raise (ValueError ("not enough values to unpack (expected 2, got "
                           +:+ pretty (length floats) +:+ ")"))
  | _ => Raise (ValueError "too many values to unpack (expected 2)")
  end.

(** ** [read_gnps_feature_metadata_file] *)

(** A row of the GNPS feature metadata table as [pd.read_csv] returns it:
    the two numeric columns (of dtype float64) from which the identifier is
    made, and the annotation.  The other columns of the file are dropped at
    the end and are left out.  A table that lacks one of the three columns,
    or that has text in a numeric column, is outside of the model. *)
Record gnps_row : Type := mkGnpsRow {
  parent_mass : spec_float;
  RTConsensus : spec_float;
  LibraryID : string
}.

Definition qurro_matching_conflict : string := "qurro_matching_conflict".

(** The value of the column [qurro_trunc_feature_id] in a row. *)
Definition qurro_trunc_feature_id (row : gnps_row) : string :=
  format_4f (parent_mass row) +:+ ";" +:+ format_4f (RTConsensus row).

(** The body of the loop over [feature_ranks_df.index]: the state is the
    dict [truncated_id_to_full_id] and the warnings logged so far. *)
Definition mapping_step (st : gmap string string * list string) (fid : string)
  : result (gmap string string * list string) :=
  let '(truncated_id_to_full_id, warnings) := st in
  tfid ← get_truncated_feature_id fid;
  match truncated_id_to_full_id !! tfid with
  | None => OK (<[tfid := fid]> truncated_id_to_full_id, warnings)
  | Some _ =>
      OK (<[tfid := qurro_matching_conflict]> truncated_id_to_full_id,
          (warnings ++ ["Indistinguishable rows in GNPS feature metadata file with truncated ID "
                          +:+ tfid +:+ "."])%list)
  end.

Definition build_mapping (feature_ranks_index : list string)
  : result (gmap string string * list string) :=
  for_each mapping_step feature_ranks_index (∅, []).

(** [Series.apply(lambda tfid: truncated_id_to_full_id[tfid])] *)
Fixpoint apply_lookup (truncated_id_to_full_id : gmap string string) (tfids : list string)
  : result (list string) :=
  match tfids with
  | [] => OK []
  | tfid :: rest =>
      match truncated_id_to_full_id !! tfid with
      | Some fid => fids ← apply_lookup truncated_id_to_full_id rest; OK (fid :: fids)
      | None => Raise (KeyError tfid)
      end
  end.

(** The loop over [metadata_df.iterrows()]: the rows come with their row
    label and their [qurro_full_feature_id]. *)
Fixpoint iterrows_loop (rows : list (nat * (gnps_row * string)))
    (indices_to_remove : list nat) : list nat :=
  match rows with
  | [] => indices_to_remove
  | (idx, (_, full)) :: rest =>
      if String.eqb full qurro_matching_conflict
      then iterrows_loop rest (indices_to_remove ++ [idx])%list
      else iterrows_loop rest indices_to_remove
  end.

(** [metadata_df.drop(index=indices_to_remove)] *)
Definition drop_index {A : Type} (rows : list (nat * A)) (indices_to_remove : list nat)
  : list (nat * A) :=
  filter (fun r => fst r ∉ indices_to_remove) rows.

(** Lines 247 to 308 of [read_gnps_feature_metadata_file]: what is done to
    the table [metadata_df] that [pd.read_csv] returned, given the row
    labels of [feature_ranks_df].  Returns the annotated table and the
    warnings logged. *)
Definition reconcile (feature_ranks_index : list string) (metadata_df : list gnps_row)
  : result (DataFrame string * list string) :=
  let trunc_ids := map qurro_trunc_feature_id metadata_df in
  '(truncated_id_to_full_id, warnings) ← build_mapping feature_ranks_index;
  full_ids ← apply_lookup truncated_id_to_full_id trunc_ids;
  (* the rows under their default labels 0, 1, 2, ... *)
  let rows := zip (seq 0 (length metadata_df)) (zip metadata_df full_ids) in
  let indices_to_remove := iterrows_loop rows [] in
  let rows := drop_index rows indices_to_remove in
  (* set_index("qurro_full_feature_id", verify_integrity=True) *)
  let new_index := map (fun r => snd (snd r)) rows in
  if bool_decide (NoDup new_index) then
    (* filter(items=["LibraryID"]) *)
    OK (mkDataFrame new_index ["LibraryID"] [map (fun r => Str (LibraryID (fst (snd r)))) rows],
        warnings)
  else Raise (ValueError "Index has duplicate keys").

Section Gnps.

(** [pd.read_csv(md_file_loc, sep="\t", na_filter=False,
    skiprows=q2_lines)] *)
Variable pd_read_csv : filesystem -> md_file_loc -> list nat -> result (list gnps_row).

Definition read_gnps_feature_metadata_file (fs : filesystem) (src : md_file_loc)
    (feature_ranks_df : DataFrame string) : result (DataFrame string * list string) :=
  '(q2_lines, src) ← get_q2_comment_lines fs src;
  metadata_df ← pd_read_csv fs src q2_lines;
  reconcile (index feature_ranks_df) metadata_df.

End Gnps.

(** ** Notions of the specification

    The definitions below are not code of the module: they say, in the
    words of its description, what the code is compared with. *)

(** Characters that [fix_id] replaces. *)
Definition is_trigger (c : ascii) : bool :=
  Ascii.eqb c "." || Ascii.eqb c "]" || Ascii.eqb c "[" || Ascii.eqb c "'"
  || Ascii.eqb c dquote || Ascii.eqb c backslash.

Fixpoint chars (s : string) : list ascii :=
  match s with
  | EmptyString => []
  | String c rest => c :: chars rest
  end.

(** The number of lines at the head of [lines] that start with [#q2:]. *)
Fixpoint leading_q2 (lines : list string) : nat :=
  match lines with
  | line :: rest => if startswith line "#q2:" then S (leading_q2 rest) else 0%nat
  | [] => 0%nat
  end.

(** A decimal numeral with exactly four digits after the point: an
    optional minus, at least one digit, a point, four digits. *)
Definition all_digits (s : string) : bool := forallb is_digit (chars s).

Definition is_decimal4 (t : string) : bool :=
  let body := match t with
              | String c rest => if Ascii.eqb c "-" then rest else t
              | EmptyString => t
              end in
  match split "." body with
  | [ip; fp] =>
      negb (String.eqb ip "") && all_digits ip
      && (String.length fp =? 4)%nat && all_digits fp
  | _ => false
  end.

(** A float with a numeric value: not an infinity and not a NaN. *)
Definition is_finite (x : spec_float) : bool :=
  match x with
  | S754_zero _ | S754_finite _ _ _ => true
  | S754_infinity _ | S754_nan => false
  end.

(** The numeral of [n / 10000] written with four decimals, for [0 <= n],
    after a minus when [neg]. *)
Definition render4 (neg : bool) (n : Z) : string :=
  sign_str neg +:+ pretty (n / 10000) +:+ "." +:+ digits4 (n mod 10000).

(** [n] is the integer nearest to the magnitude of [x] in units of
    1/10000: they differ by at most half a unit, and [n] is even if they
    differ by exactly half a unit. *)
Definition is_nearest4 (x : spec_float) (n : Z) : Prop :=
  match x with
  | S754_zero _ => n = 0
  | S754_finite _ m e =>
      let '(num, den) := scaled_ratio m e in
      0 <= n /\ Z.abs (2 * (n * den - num)) <= den
      /\ (Z.abs (2 * (n * den - num)) = den -> Z.even n = true)
  | _ => False
  end.

Definition float_sign (x : spec_float) : bool :=
  match x with
  | S754_zero s | S754_infinity s | S754_finite s _ _ => s
  | S754_nan => false
  end.

(** The characters of a numeral written by [format]. *)
Definition numeral_char (c : ascii) : bool :=
  is_digit c || Ascii.eqb c "." || Ascii.eqb c "-".

(** The state of one truncated identifier while the mapping is built. *)
Inductive key_state : Type :=
| Unseen
| Mapped (full_id : string)
| Conflicted.

Definition key_state_of (d : gmap string string) (tfid : string) : key_state :=
  match d !! tfid with
  | None => Unseen
  | Some v => if String.eqb v qurro_matching_conflict then Conflicted else Mapped v
  end.

(** The number of identifiers in [fids] whose truncated identifier is
    [tfid]. *)
Definition truncates_to (tfid fid : string) : bool :=
  match get_truncated_feature_id fid with
  | OK t => String.eqb t tfid
  | Raise _ => false
  end.

Definition count_truncated (tfid : string) (fids : list string) : nat :=
  length (filter (fun fid => truncates_to tfid fid = true) fids).

(** The first identifier in [fids] whose truncated identifier is [tfid]. *)
Definition first_truncated (tfid : string) (fids : list string) : option string :=
  head (filter (fun fid => truncates_to tfid fid = true) fids).

(** The warning logged for a truncated identifier that was seen before. *)
Definition collision_warning (tfid : string) : string :=
  "Indistinguishable rows in GNPS feature metadata file with truncated ID " +:+ tfid +:+ ".".

(** Text that consists of whitespace only, and text that neither starts
    nor ends with whitespace. *)
Definition all_space (sp : ascii -> bool) (s : string) : bool := forallb sp (chars s).

Definition head_char (s : string) : option ascii := head (chars s).

Definition last_char (s : string) : option ascii := last (chars s).

Definition no_outer_space (sp : ascii -> bool) (s : string) : Prop :=
  forall c, head_char s = Some c \/ last_char s = Some c -> sp c = false.

(** A cell after normalisation, as the loader is described: surrounding
    whitespace stripped, and missing if nothing is left. *)
Definition normalize_cell (c : cell) : cell :=
  match c with
  | NaN => NaN
  | Str s => if String.eqb (strip s) "" then NaN else Str (strip s)
  end.

(** A cell that holds no identifier: missing, or only whitespace. *)
Definition blank (c : cell) : bool :=
  match c with
  | NaN => true
  | Str s => String.eqb (strip s) ""
  end.

(** The value of the column [qurro_full_feature_id] in a row whose
    truncated identifier is a key of the dict. *)
Definition qurro_full_feature_id (d : gmap string string) (row : gnps_row) : string :=
  default qurro_matching_conflict (d !! qurro_trunc_feature_id row).

(** ** Example inputs *)

Definition LF : string := str1 (chr 10).
Definition TAB : string := str1 (chr 9).

(** A metadata file with a header, three [#q2:] lines and a data line. *)
Definition example_text : string :=
  "sampleid" +:+ TAB +:+ "ph" +:+ LF
  +:+ "#q2:types" +:+ TAB +:+ "numeric" +:+ LF
  +:+ "#q2:units" +:+ TAB +:+ "none" +:+ LF
  +:+ "#q2:notes" +:+ LF
  +:+ "s1" +:+ TAB +:+ "7" +:+ LF.

(** The float that a numeral denotes ([nan] if it is not one). *)
Definition float_lit (s : string) : spec_float := default S754_nan (float_of_str s).

(** Reference identifiers: two that have the same truncated identifier and
    one that has its own. *)
Definition example_ranks_index : list string :=
  ["1.00001;2.00001"; "1.00002;2.00002"; "5.5;6.6"].

(** External rows: two with the ambiguous truncated identifier and one
    that matches the third reference identifier. *)
Definition example_metadata_df : list gnps_row :=
  [mkGnpsRow (float_lit "1.0") (float_lit "2.0") "lib A";
   mkGnpsRow (float_lit "1.00004") (float_lit "2.00004") "lib B";
   mkGnpsRow (float_lit "5.5") (float_lit "6.6") "lib C"].

(** A table as [pd.read_csv] returns it: identifiers and values with
    spaces around them, and a value that is only spaces. *)
Definition example_frame : DataFrame nat :=
  mkDataFrame [0; 1]%nat ["sampleid"; "ph"]
              [[Str " s1 "; Str "s2"]; [Str "  "; Str " 7"]].

(** The same with a second identifier that is only spaces. *)
Definition example_frame_blank_id : DataFrame nat :=
  mkDataFrame [0; 1]%nat ["sampleid"; "ph"]
              [[Str "s1"; Str "   "]; [Str "6"; Str "7"]].

(** The external rows of the example and a row that matches no reference
    identifier. *)
Definition example_metadata_df_unmatched : list gnps_row :=
  (example_metadata_df ++ [mkGnpsRow (float_lit "7.25") (float_lit "8.5") "lib D"])%list.

(** * Properties *)

(** ** Strings and lists *)

Lemma append_cons (c : ascii) (a b : string) : String c a +:+ b = String c (a +:+ b).
Proof. reflexivity. Qed.

Lemma append_nil_l (s : string) : "" +:+ s = s.
Proof. reflexivity. Qed.

Lemma append_nil_r (s : string) : s +:+ "" = s.
Proof. induction s as [|c s IH]; [reflexivity | now rewrite append_cons, IH]. Qed.

Lemma append_assoc (a b c : string) : (a +:+ b) +:+ c = a +:+ (b +:+ c).
Proof. induction a as [|x a IH]; [reflexivity | now rewrite !append_cons, IH]. Qed.

Lemma chars_app (a b : string) : chars (a +:+ b) = (chars a ++ chars b)%list.
Proof.
  induction a as [|x a IH]; [reflexivity | rewrite append_cons; simpl; now rewrite IH].
Qed.

Lemma chars_inj (a b : string) : chars a = chars b -> a = b.
Proof.
  revert b; induction a as [|x a IH]; intros [|y b]; simpl; try discriminate; auto.
  intros [= -> H]. f_equal. auto.
Qed.

Lemma string_length_chars (s : string) : String.length s = length (chars s).
Proof. induction s; simpl; auto. Qed.

(** ** [unique] *)

Section unique_facts.
Context {A : Type} `{EqDecision A}.

Lemma unique_from_length_le (l seen : list A) :
  (length (unique_from seen l) <= length l)%nat.
Proof.
  revert seen; induction l as [|x l IH]; intros seen; simpl; [lia|].
  destruct (decide (x ∈ seen)); simpl.
  - specialize (IH seen); lia.
  - specialize (IH (x :: seen)); lia.
Qed.

Lemma unique_from_length (l seen : list A) :
  length (unique_from seen l) = length l <-> NoDup l /\ (forall x, x ∈ l -> x ∉ seen).
Proof.
  revert seen; induction l as [|x l IH]; intros seen; simpl.
  - split; [intros _; split; [constructor | intros x Hx; inversion Hx] | reflexivity].
  - destruct (decide (x ∈ seen)) as [Hin|Hnin]; simpl.
    + split.
      * intros Hlen. pose proof (unique_from_length_le l seen). lia.
      * intros [_ Hall]. exfalso. apply (Hall x); [left | exact Hin].
    + split.
      * intros Hlen. injection Hlen as Hlen. apply IH in Hlen as [Hnd Hall].
        split.
        -- constructor; [|exact Hnd]. intros Hx. apply (Hall x Hx). left.
        -- intros y Hy. inversion Hy; subst; [exact Hnin|].
           intros Hys. apply (Hall y); [assumption | now right].
      * intros [Hnd Hall]. f_equal. apply IH.
        apply NoDup_cons in Hnd as [Hx Hnd]. split; [exact Hnd|].
        intros y Hy Hys. inversion Hys; subst; [contradiction|].
        apply (Hall y); [now right | assumption].
Qed.

Lemma unique_length_NoDup (l : list A) :
  length (unique l) = length l <-> NoDup l.
Proof.
  unfold unique. rewrite unique_from_length. split; [tauto|].
  intros H; split; [exact H|]. intros x _ Hx. inversion Hx.
Qed.

Lemma unique_length_eqb (l : list A) :
  (length (unique l) =? length l)%nat = bool_decide (NoDup l).
Proof.
  destruct (length (unique l) =? length l)%nat eqn:E.
  - apply Nat.eqb_eq, unique_length_NoDup in E. symmetry. now apply bool_decide_eq_true.
  - apply Nat.eqb_neq in E. symmetry. apply bool_decide_eq_false.
    intros H. now apply E, unique_length_NoDup.
Qed.
End unique_facts.

(** ** [fix_id] *)

Section escaper.

Lemma fix_id_loop_app (fid acc : string) :
  fix_id_loop fid acc = acc +:+ fix_id_loop fid "".
Proof.
  revert acc; induction fid as [|c fid IH]; intros acc; simpl.
  - now rewrite append_nil_r.
  - rewrite (IH (acc +:+ str1 (fix_char c))), (IH ("" +:+ str1 (fix_char c))).
    now rewrite append_nil_l, append_assoc.
Qed.

Lemma fix_id_cons (c : ascii) (s : string) :
  fix_id (String c s) = String (fix_char c) (fix_id s).
Proof. unfold fix_id; simpl. now rewrite fix_id_loop_app. Qed.

Lemma chars_fix_id (s : string) : chars (fix_id s) = map fix_char (chars s).
Proof.
  induction s as [|c s IH]; [reflexivity|].
  rewrite fix_id_cons; simpl. now rewrite IH.
Qed.

(** No character that [fix_id] writes is one that it replaces. *)
Lemma fix_char_not_trigger (c : ascii) : is_trigger (fix_char c) = false.
Proof. destruct c as [[] [] [] [] [] [] [] []]; reflexivity. Qed.

Lemma fix_char_untriggered (c : ascii) : is_trigger c = false -> fix_char c = c.
Proof. destruct c as [[] [] [] [] [] [] [] []]; (reflexivity || discriminate). Qed.

Lemma fix_char_idempotent (c : ascii) : fix_char (fix_char c) = fix_char c.
Proof. apply fix_char_untriggered, fix_char_not_trigger. Qed.

(** C9: [fix_id] is a total function that is idempotent on every string:
    escaping an escaped identifier changes nothing, because no character
    it writes is one of the characters it replaces; it works character
    by character. *)
Theorem fix_id_idempotent (s : string) :
  fix_id (fix_id s) = fix_id s
  /\ Forall (fun c => is_trigger c = false) (chars (fix_id s))
  /\ chars (fix_id s) = map fix_char (chars s).
Proof.
  split; [|split].
  - apply chars_inj. rewrite !chars_fix_id, map_map.
    apply map_ext; intros c; apply fix_char_idempotent.
  - rewrite chars_fix_id. apply Forall_forall. intros c Hc.
    apply list_elem_of_In, in_map_iff in Hc as [c0 [<- _]]. apply fix_char_not_trigger.
  - apply chars_fix_id.
Qed.

End escaper.

(** ** [escape_columns] *)

Section escape_columns_facts.
Context {I : Type} `{EqDecision I}.

Lemma escape_columns_loop_map (cols acc : list string) :
  escape_columns_loop cols acc = (acc ++ map fix_id cols)%list.
Proof.
  revert acc; induction cols as [|c cols IH]; intros acc; simpl.
  - now rewrite app_nil_r.
  - rewrite IH, <- app_assoc. reflexivity.
Qed.

Lemma ensure_df_headers_unique_OK (df : DataFrame I) (name : string) :
  NoDup (index df) -> NoDup (columns df) -> ensure_df_headers_unique df name = OK tt.
Proof.
  intros Hi Hc. unfold ensure_df_headers_unique, shape; simpl.
  rewrite !unique_length_eqb, !bool_decide_eq_true_2 by assumption. reflexivity.
Qed.

Lemma ensure_df_headers_unique_columns (df : DataFrame I) (name : string) :
  NoDup (index df) -> ~ NoDup (columns df) ->
  ensure_df_headers_unique df name
  = Raise (ValueError ("Columns of the " +:+ name +:+ " DataFrame are not unique.")).
Proof.
  intros Hi Hc. unfold ensure_df_headers_unique, shape; simpl.
  rewrite !unique_length_eqb, bool_decide_eq_true_2 by assumption.
  rewrite bool_decide_eq_false_2 by assumption. reflexivity.
Qed.

Lemma ensure_df_headers_unique_index (df : DataFrame I) (name : string) :
  ~ NoDup (index df) ->
  ensure_df_headers_unique df name
  = Raise (ValueError ("Indices of the " +:+ name +:+ " DataFrame are not unique.")).
Proof.
  intros Hi. unfold ensure_df_headers_unique, shape; simpl.
  rewrite unique_length_eqb, bool_decide_eq_false_2 by assumption. reflexivity.
Qed.

Lemma NoDup_map_collapse {A B : Type} (f : A -> B) (l : list A) :
  NoDup l ->
  (NoDup (map f l) <-> ~ exists a b, a ∈ l /\ b ∈ l /\ a <> b /\ f a = f b).
Proof.
  intros Hl. split.
  - intros Hm (a & b & Ha & Hb & Hne & Hf). apply Hne.
    clear Hl. induction l as [|x l IH]; [inversion Ha|].
    simpl in Hm. apply NoDup_cons in Hm as [Hx Hm].
    inversion Ha; subst; inversion Hb; subst; auto.
    + exfalso. apply Hx. rewrite Hf. apply list_elem_of_In, in_map, list_elem_of_In. assumption.
    + exfalso. apply Hx. rewrite <- Hf. apply list_elem_of_In, in_map, list_elem_of_In. assumption.
  - intros Hn. induction Hl as [|x l Hx Hl IH]; simpl; [constructor|].
    apply NoDup_cons. split.
    + intros Hin. apply list_elem_of_In, in_map_iff in Hin as (y & Hfy & Hy).
      apply list_elem_of_In in Hy.
      apply Hn. exists x, y. repeat split; [left | now right | | congruence].
      intros ->. contradiction.
    + apply IH. intros (a & b & Ha & Hb & Hne & Hf). apply Hn.
      exists a, b. repeat split; auto; now right.
Qed.

(** C8: on a table (row labels pairwise distinct, column labels pairwise
    distinct), [escape_columns] replaces every column label by its
    escaped form and raises a [ValueError] exactly when two distinct
    labels have the same escaped form; otherwise it returns the table
    with the escaped labels. *)
Theorem escape_columns_collapse (df : DataFrame I) :
  NoDup (index df) -> NoDup (columns df) ->
  ((exists a b, a ∈ columns df /\ b ∈ columns df /\ a <> b /\ fix_id a = fix_id b) ->
   escape_columns df
   = Raise (ValueError
              "Columns of the escape_columns() DataFrame DataFrame are not unique."))
  /\ (~ (exists a b, a ∈ columns df /\ b ∈ columns df /\ a <> b /\ fix_id a = fix_id b) ->
      escape_columns df
      = OK (mkDataFrame (index df) (map fix_id (columns df)) (values df))).
Proof.
  intros Hi Hc. unfold escape_columns. rewrite escape_columns_loop_map; simpl.
  pose proof (NoDup_map_collapse fix_id (columns df) Hc) as Hiff.
  split; intros Hcol.
  - rewrite ensure_df_headers_unique_columns; simpl; [reflexivity | assumption | tauto].
  - rewrite ensure_df_headers_unique_OK; simpl; [reflexivity | assumption | tauto].
Qed.

End escape_columns_facts.

(** The labels [a.b] and [a:b] are escaped to the same label. *)
Lemma escape_columns_collapse_witness :
  escape_columns (mkDataFrame ["s1"; "s2"] ["a.b"; "a:b"] [[Str "1"; Str "2"]; [NaN; Str "3"]])
  = Raise (ValueError "Columns of the escape_columns() DataFrame DataFrame are not unique.")
  /\ escape_columns (mkDataFrame ["s1"; "s2"] ["a.b"; "a[0]"] [[Str "1"; Str "2"]; [NaN; Str "3"]])
     = OK (mkDataFrame ["s1"; "s2"] ["a:b"; "a(0)"] [[Str "1"; Str "2"]; [NaN; Str "3"]]).
Proof.
  split.
  - apply (escape_columns_collapse
             (mkDataFrame ["s1"; "s2"] ["a.b"; "a:b"] [[Str "1"; Str "2"]; [NaN; Str "3"]])).
    + apply (bool_decide_unpack _). vm_compute. exact I.
    + apply (bool_decide_unpack _). vm_compute. exact I.
    + exists "a.b", "a:b". simpl.
      repeat split; [left | right; left | discriminate].
  - apply (escape_columns_collapse
             (mkDataFrame ["s1"; "s2"] ["a.b"; "a[0]"] [[Str "1"; Str "2"]; [NaN; Str "3"]])).
    + apply (bool_decide_unpack _). vm_compute. exact I.
    + apply (bool_decide_unpack _). vm_compute. exact I.
    + apply (NoDup_map_collapse fix_id ["a.b"; "a[0]"]).
      * apply (bool_decide_unpack _). vm_compute. exact I.
      * apply (bool_decide_unpack _). vm_compute. exact I.
Defined.

(** ** [get_q2_comment_lines] *)

Section scanner.

Lemma loop_after_header (lines : list string) (acc : list nat) (n : nat) :
  (0 < n)%nat ->
  iterate_over_file_obj_lines_loop lines acc n = (acc ++ seq n (leading_q2 lines))%list.
Proof.
  revert acc n; induction lines as [|line rest IH]; intros acc n Hn; simpl.
  - now rewrite app_nil_r.
  - destruct (0 <? n)%nat eqn:E; [|apply Nat.ltb_ge in E; lia].
    destruct (startswith line "#q2:"); simpl.
    + rewrite IH by lia. now rewrite <- app_assoc.
    + now rewrite app_nil_r.
Qed.

Lemma iterate_over_file_obj_lines_seq (lines : list string) :
  iterate_over_file_obj_lines lines = seq 1 (leading_q2 (tail lines)).
Proof.
  unfold iterate_over_file_obj_lines. destruct lines as [|header rest]; simpl; [reflexivity|].
  now rewrite loop_after_header by lia.
Qed.

Lemma leading_q2_le (lines : list string) : (leading_q2 lines <= length lines)%nat.
Proof.
  induction lines as [|l ls IH]; simpl; [lia|].
  destruct (startswith l "#q2:"); lia.
Qed.

(** Line [i] is counted exactly when it and all lines before it start
    with the prefix. *)
Lemma leading_q2_lt (lines : list string) (i : nat) :
  (i < leading_q2 lines)%nat <->
  forall j, (j <= i)%nat ->
            exists line, lines !! j = Some line /\ startswith line "#q2:" = true.
Proof.
  revert i; induction lines as [|l ls IH]; intros i; simpl.
  - split; [lia|]. intros H. destruct (H 0%nat) as (line & Hl & _); [lia | discriminate].
  - destruct (startswith l "#q2:") eqn:E.
    + split.
      * intros Hi [|j] Hj; simpl; [eauto|].
        destruct i as [|i]; [lia|]. apply (IH i); lia.
      * intros H. destruct i as [|i]; [lia|].
        apply ->Nat.succ_lt_mono. apply IH. intros j Hj.
        apply (H (S j)). lia.
    + split; [lia|]. intros H. destruct (H 0%nat) as (line & Hl & Hs); [lia|].
      simpl in Hl. injection Hl as <-. congruence.
Qed.

Lemma source_lines_get (fs : filesystem) (src : md_file_loc) (lines : list string) :
  source_lines fs src = OK lines ->
  get_q2_comment_lines fs src = OK (iterate_over_file_obj_lines lines, seek0 src).
Proof.
  destruct src as [buf pos|path]; simpl.
  - now intros [= <-].
  - destruct (fs !! path); [now intros [= <-] | discriminate].
Qed.

(** C6: the scanner returns, in ascending order, the zero-based numbers of
    the lines after the first whose line, and every line between the
    header and it, starts with [#q2:]; three such lines followed by
    another line give [1; 2; 3]; and a [StringIO] is left at position 0,
    so that reading it again yields all of its lines. *)
Theorem get_q2_comment_lines_spec
    (fs : filesystem) (src : md_file_loc) (lines : list string) :
  source_lines fs src = OK lines ->
  get_q2_comment_lines fs src = OK (seq 1 (leading_q2 (tail lines)), seek0 src)
  /\ (forall i, i ∈ seq 1 (leading_q2 (tail lines)) <->
                (1 <= i)%nat /\
                forall j, (1 <= j <= i)%nat ->
                          exists line, lines !! j = Some line
                                       /\ startswith line "#q2:" = true)
  /\ (forall h a b c d rest,
         lines = h :: a :: b :: c :: d :: rest ->
         startswith a "#q2:" = true -> startswith b "#q2:" = true ->
         startswith c "#q2:" = true -> startswith d "#q2:" = false ->
         seq 1 (leading_q2 (tail lines)) = [1; 2; 3]%nat)
  /\ (forall buf pos, src = StringIO buf pos ->
                      seek0 src = StringIO buf 0
                      /\ source_lines fs (seek0 src) = OK (iter_lines buf))
  /\ (forall path, src = Path path -> seek0 src = src).
Proof.
  intros Hsrc. split; [|split; [|split; [|split]]].
  - rewrite (source_lines_get _ _ _ Hsrc). now rewrite iterate_over_file_obj_lines_seq.
  - intros i. rewrite elem_of_seq. split.
    + intros [H1 H2]. split; [exact H1|]. intros j Hj.
      destruct lines as [|h t]; [simpl in H2; lia|]. simpl in H2.
      assert (Hlt : (i - 1 < leading_q2 t)%nat) by lia.
      destruct (proj1 (leading_q2_lt t (i - 1)) Hlt (j - 1)%nat) as (line & Hl & Hs); [lia|].
      exists line. split; [|exact Hs].
      destruct j as [|j]; [lia|]. simpl. now replace (S j - 1)%nat with j in Hl by lia.
    + intros [H1 H2]. split; [exact H1|].
      destruct lines as [|h t].
      * destruct (H2 i) as (line & Hl & _); [lia | discriminate].
      * simpl. assert (Hlt : (i - 1 < leading_q2 t)%nat); [|lia].
        apply leading_q2_lt. intros j Hj.
        destruct (H2 (S j)) as (line & Hl & Hs); [lia|]. eauto.
  - intros h a b c d rest -> Ha Hb Hc Hd. simpl. now rewrite Ha, Hb, Hc, Hd.
  - intros buf pos ->. split; reflexivity.
  - intros path ->. reflexivity.
Qed.

(** C10: the list that the scanner returns is [1; 2; ...; k] for some
    [k]: line 0 is never in it and no number is skipped.  The scanner
    fails only for a file name that cannot be opened. *)
Theorem q2_comment_lines_contiguous (fs : filesystem) (src : md_file_loc) :
  (forall lines, exists k,
      iterate_over_file_obj_lines lines = seq 1 k /\ (k <= length lines - 1)%nat)
  /\ match get_q2_comment_lines fs src with
     | OK (q2_lines, _) => exists k, q2_lines = seq 1 k /\ 0%nat ∉ q2_lines
     | Raise e => exists path, src = Path path /\ fs !! path = None
                               /\ e = FileNotFoundError path
     end.
Proof.
  assert (Hall : forall lines, exists k,
             iterate_over_file_obj_lines lines = seq 1 k /\ (k <= length lines - 1)%nat).
  { intros lines. exists (leading_q2 (tail lines)).
    split; [apply iterate_over_file_obj_lines_seq|].
    destruct lines as [|h t]; simpl; [lia|].
    pose proof (leading_q2_le t). lia. }
  split; [exact Hall|].
  assert (Hseq : forall lines, exists k,
             iterate_over_file_obj_lines lines = seq 1 k
             /\ 0%nat ∉ iterate_over_file_obj_lines lines).
  { intros lines. destruct (Hall lines) as (k & Hk & _). exists k. split; [exact Hk|].
    rewrite Hk, elem_of_seq. lia. }
  destruct src as [buf pos|path]; simpl.
  - apply Hseq.
  - destruct (fs !! path) as [text|] eqn:E; [apply Hseq | eauto].
Qed.

End scanner.

(** The example text, from a [StringIO] and from a file. *)
Lemma get_q2_comment_lines_spec_witness :
  get_q2_comment_lines ∅ (StringIO example_text 0)
  = OK ([1; 2; 3]%nat, StringIO example_text 0)
  /\ get_q2_comment_lines {[ "metadata.tsv" := example_text ]} (Path "metadata.tsv")
     = OK ([1; 2; 3]%nat, Path "metadata.tsv").
Proof.
  split.
  - exact (proj1 (get_q2_comment_lines_spec ∅ (StringIO example_text 0)
                    (iter_lines example_text) eq_refl)).
  - exact (proj1 (get_q2_comment_lines_spec {[ "metadata.tsv" := example_text ]}
                    (Path "metadata.tsv")
                    (iter_lines (universal_newlines example_text)) eq_refl)).
Defined.

(** ** [float] and [format] *)

Section floats.

Lemma round_half_even_nearest (num den : Z) :
  0 <= num -> 0 < den ->
  0 <= round_half_even num den
  /\ Z.abs (2 * (round_half_even num den * den - num)) <= den
  /\ (Z.abs (2 * (round_half_even num den * den - num)) = den ->
      Z.even (round_half_even num den) = true).
Proof.
  intros Hn Hd. unfold round_half_even.
  pose proof (Z.div_mod num den ltac:(lia)) as Hdm.
  pose proof (Z.mod_pos_bound num den Hd) as Hr.
  pose proof (Z.div_pos num den Hn Hd) as Hq.
  set (q := num / den) in *. set (r := num mod den) in *.
  destruct (Z.compare_spec (2 * r) den) as [He|Hl|Hg].
  - destruct (Z.even q) eqn:Hev.
    + split; [lia|]. split; [nia | intros _; exact Hev].
    + split; [lia|]. split; [nia|]. intros _.
      rewrite Z.even_add, Hev. reflexivity.
  - split; [lia|]. split; [nia|]. intros Habs. exfalso. nia.
  - split; [lia|]. split; [nia|]. intros Habs. exfalso. nia.
Qed.

Lemma scaled_ratio_pos (m : positive) (e : Z) :
  0 < fst (scaled_ratio m e) /\ 0 < snd (scaled_ratio m e).
Proof.
  unfold scaled_ratio, scale2.
  destruct (0 <=? - e) eqn:E; simpl.
  - apply Z.leb_le in E. pose proof (Z.pow_pos_nonneg 2 (- e) ltac:(lia) E). split; lia.
  - apply Z.leb_gt in E. pose proof (Z.pow_pos_nonneg 2 (- - e) ltac:(lia) ltac:(lia)).
    split; nia.
Qed.

Lemma round4_nearest (s : bool) (m : positive) (e : Z) :
  is_nearest4 (S754_finite s m e) (round4 m e).
Proof.
  unfold is_nearest4, round4.
  pose proof (scaled_ratio_pos m e) as [Hn Hd].
  destruct (scaled_ratio m e) as [num den]; simpl in *.
  apply round_half_even_nearest; lia.
Qed.

Lemma is_digit_not_point (c : ascii) : is_digit c = true -> Ascii.eqb c "." = false.
Proof. destruct c as [[] [] [] [] [] [] [] []]; (reflexivity || discriminate). Qed.

Lemma is_digit_not_minus (c : ascii) : is_digit c = true -> Ascii.eqb c "-" = false.
Proof. destruct c as [[] [] [] [] [] [] [] []]; (reflexivity || discriminate). Qed.

Lemma is_digit_digit_chr (d : Z) : 0 <= d < 10 -> is_digit (digit_chr d) = true.
Proof.
  intros H.
  assert (d = 0 \/ d = 1 \/ d = 2 \/ d = 3 \/ d = 4 \/ d = 5 \/ d = 6 \/ d = 7
          \/ d = 8 \/ d = 9) as Hd by lia.
  repeat destruct Hd as [-> | Hd]; try reflexivity. now subst.
Qed.

Lemma is_digit_pretty_N_char (d : N) : is_digit (pretty_N_char d) = true.
Proof. unfold pretty_N_char. repeat case_match; reflexivity. Qed.

Lemma all_digits_cons (c : ascii) (s : string) :
  all_digits (String c s) = is_digit c && all_digits s.
Proof. reflexivity. Qed.

Lemma all_digits_digits4 (n : Z) : all_digits (digits4 n) = true.
Proof.
  unfold digits4. rewrite !all_digits_cons.
  rewrite !is_digit_digit_chr by (apply Z.mod_pos_bound; lia). reflexivity.
Qed.

Lemma all_digits_pretty_N_go (x : N) (s : string) :
  all_digits s = true -> all_digits (pretty_N_go x s) = true.
Proof.
  revert s. induction (N.lt_wf_0 x) as [x _ IH]; intros s Hs.
  destruct (decide (x = 0)%N) as [->|Hx].
  - now rewrite pretty_N_go_0.
  - rewrite pretty_N_go_step by lia. apply IH.
    + apply N.div_lt; lia.
    + rewrite all_digits_cons, is_digit_pretty_N_char. exact Hs.
Qed.

Lemma pretty_N_go_nonempty (x : N) (s : string) :
  (0 < x)%N -> pretty_N_go x s <> "".
Proof.
  revert s. induction (N.lt_wf_0 x) as [x _ IH]; intros s Hx.
  rewrite pretty_N_go_step by exact Hx.
  destruct (decide (x `div` 10 = 0)%N) as [E|E].
  - rewrite E, pretty_N_go_0. discriminate.
  - apply IH; [apply N.div_lt; lia | now apply N.neq_0_lt_0].
Qed.

(** The numeral of a natural number: digits, at least one. *)
Lemma pretty_Z_digits (q : Z) :
  0 <= q -> all_digits (pretty q) = true /\ pretty q <> "".
Proof.
  intros Hq. destruct q as [|p|p]; [split; [reflexivity | discriminate] | | lia].
  unfold pretty, pretty_Z, pretty, pretty_positive, pretty, pretty_N.
  destruct (decide (N.pos p = 0%N)); [discriminate|].
  split; [now apply all_digits_pretty_N_go | apply pretty_N_go_nonempty; lia].
Qed.

Lemma split_digits (d : string) : all_digits d = true -> split "." d = [d].
Proof.
  induction d as [|c d IH]; [reflexivity|].
  rewrite all_digits_cons. intros [Hc Hd]%andb_prop. simpl.
  now rewrite (is_digit_not_point c Hc), (IH Hd).
Qed.

Lemma split_digits_point (a b : string) :
  all_digits a = true -> split "." (a +:+ "." +:+ b) = a :: split "." b.
Proof.
  induction a as [|c a IH]; [reflexivity|].
  rewrite all_digits_cons. intros [Hc Ha]%andb_prop.
  rewrite append_cons. simpl. now rewrite (is_digit_not_point c Hc), (IH Ha).
Qed.

(** A rendered numeral has exactly four digits after the point. *)
Lemma is_decimal4_render4 (neg : bool) (n : Z) :
  0 <= n -> is_decimal4 (render4 neg n) = true.
Proof.
  intros Hn. unfold render4.
  assert (Hq : 0 <= n / 10000) by (apply Z.div_pos; lia).
  destruct (pretty_Z_digits _ Hq) as [Hdig Hne].
  set (ip := pretty (n / 10000)) in *. set (fp := digits4 (n mod 10000)).
  assert (Hbody : is_decimal4 (ip +:+ "." +:+ fp) = true
                  /\ is_decimal4 (String "-" (ip +:+ "." +:+ fp)) = true).
  { assert (Hs : split "." (ip +:+ "." +:+ fp) = [ip; fp]).
    { rewrite split_digits_point by exact Hdig.
      now rewrite (split_digits fp) by apply all_digits_digits4. }
    assert (Hok : negb (String.eqb ip "") && all_digits ip
                  && (String.length fp =? 4)%nat && all_digits fp = true).
    { rewrite Hdig. unfold fp at 2. rewrite all_digits_digits4.
      destruct (String.eqb_spec ip ""); [contradiction | reflexivity]. }
    split.
    - unfold is_decimal4. destruct ip as [|c ip']; [contradiction|].
      rewrite append_cons. rewrite all_digits_cons in Hdig.
      apply andb_prop in Hdig as [Hc _]. rewrite (is_digit_not_minus c Hc).
      rewrite <- append_cons, Hs. exact Hok.
    - unfold is_decimal4. rewrite Ascii.eqb_refl, Hs. exact Hok. }
  destruct neg; [exact (proj2 Hbody) | exact (proj1 Hbody)].
Qed.

(** What [format] writes for a float with a numeric value: the numeral,
    with four decimals, of an integer number of 1/10000 nearest to it. *)
Lemma format_4f_finite (x : spec_float) :
  is_finite x = true ->
  exists n, is_nearest4 x n
            /\ format_4f x = render4 (float_sign x) n
            /\ is_decimal4 (format_4f x) = true.
Proof.
  destruct x as [s|s| |s m e]; try discriminate; intros _.
  - exists 0. split; [reflexivity|]. split; [reflexivity|]. now destruct s.
  - exists (round4 m e).
    pose proof (round4_nearest s m e) as Hn.
    split; [exact Hn|]. split; [reflexivity|].
    change (format_4f (S754_finite s m e)) with (render4 s (round4 m e)).
    apply is_decimal4_render4.
    unfold is_nearest4 in Hn. destruct (scaled_ratio m e). tauto.
Qed.

Lemma format_4f_not_finite (x : spec_float) :
  is_finite x = false ->
  format_4f x = "nan" \/ format_4f x = "inf" \/ format_4f x = "-inf".
Proof. destruct x as [s|[]| |s m e]; try discriminate; auto. Qed.

End floats.

(** ** [get_truncated_feature_id] *)

Section truncated_ids.

Lemma map_float_OK (fields : list string) (xs : list spec_float) :
  map_float fields = OK xs <-> Forall2 (fun f x => float_of_str f = Some x) fields xs.
Proof.
  revert xs; induction fields as [|f fields IH]; intros xs; simpl.
  - split; [intros [= <-]; constructor | intros H; inversion H; reflexivity].
  - destruct (float_of_str f) as [x|] eqn:E.
    + destruct (map_float fields) as [ys|e] eqn:E'; simpl.
      * split.
        -- intros [= <-]. constructor; [exact E | now apply IH].
        -- intros H. inversion H as [|? y ? ys' Hf Hrest]; subst.
           apply IH in Hrest. congruence.
      * split; [discriminate|]. intros H. inversion H as [|? y ? ys' Hf Hrest]; subst.
        apply IH in Hrest. discriminate.
    + split; [discriminate|]. intros H. inversion H; congruence.
Qed.

Lemma map_float_Raise (fields : list string) (e : exn) :
  map_float fields = Raise e ->
  (exists f, f ∈ fields /\ float_of_str f = None) /\ exists msg, e = ValueError msg.
Proof.
  induction fields as [|f fields IH]; simpl; [discriminate|].
  destruct (float_of_str f) as [x|] eqn:E.
  - destruct (map_float fields) as [ys|e'] eqn:E'; simpl; [discriminate|].
    intros [= <-]. destruct (IH eq_refl) as [(g & Hg & Hnone) Hmsg].
    split; [exists g; split; [now right | exact Hnone] | exact Hmsg].
  - intros [= <-]. split; [exists f; split; [left | exact E] | eauto].
Qed.

Lemma map_float_unparseable (fields : list string) (f : string) :
  f ∈ fields -> float_of_str f = None -> exists msg, map_float fields = Raise (ValueError msg).
Proof.
  intros Hin Hnone. destruct (map_float fields) as [xs|e] eqn:E.
  - apply map_float_OK in E. exfalso.
    induction E as [|g x gs xs Hg _ IH]; [inversion Hin|].
    inversion Hin; subst; [congruence | auto].
  - apply map_float_Raise in E as [_ [msg ->]]. eauto.
Qed.

Lemma get_truncated_feature_id_two (s a b : string) (x y : spec_float) :
  split ";" s = [a; b] -> float_of_str a = Some x -> float_of_str b = Some y ->
  get_truncated_feature_id s = OK (format_4f x +:+ ";" +:+ format_4f y).
Proof.
  intros Hs Ha Hb. unfold get_truncated_feature_id. rewrite Hs. simpl.
  now rewrite Ha, Hb.
Qed.

(** If an identifier has a truncated identifier at all, it is two fields
    that both read as floats. *)
Lemma get_truncated_feature_id_inv (s t : string) :
  get_truncated_feature_id s = OK t ->
  exists a b x y, split ";" s = [a; b] /\ float_of_str a = Some x /\ float_of_str b = Some y
                  /\ t = format_4f x +:+ ";" +:+ format_4f y.
Proof.
  unfold get_truncated_feature_id.
  destruct (map_float (split ";" s)) as [xs|e] eqn:E; simpl; [|discriminate].
  apply map_float_OK in E.
  destruct xs as [|x [|y [|z xs]]]; try discriminate.
  intros [= <-].
  inversion E as [|a ? fs ? Ha E1]; subst. inversion E1 as [|b ? fs' ? Hb E2]; subst.
  inversion E2; subst. exists a, b, x, y. repeat split; auto.
Qed.

(** C5: an identifier that does not split on [;] into exactly two fields,
    or one of whose fields does not read as a float, makes
    [get_truncated_feature_id] raise a [ValueError]; any other identifier
    has a truncated identifier. *)
Theorem get_truncated_feature_id_malformed (s : string) :
  ((length (split ";" s) <> 2%nat
    \/ exists f, f ∈ split ";" s /\ float_of_str f = None) ->
   is_ValueError (get_truncated_feature_id s))
  /\ (~ (length (split ";" s) <> 2%nat
         \/ exists f, f ∈ split ";" s /\ float_of_str f = None) ->
      exists t, get_truncated_feature_id s = OK t).
Proof.
  unfold get_truncated_feature_id, is_ValueError.
  destruct (map_float (split ";" s)) as [xs|e] eqn:E; simpl.
  - pose proof (proj1 (map_float_OK _ _) E) as HF.
    pose proof (Forall2_length _ _ _ HF) as Hlen.
    split.
    + intros [Hne | (f & Hin & Hnone)].
      * destruct xs as [|x [|y [|z xs]]]; simpl in *; eauto. lia.
      * destruct (map_float_unparseable _ _ Hin Hnone) as [msg Hm]. congruence.
    + intros Hok. destruct xs as [|x [|y [|z xs]]]; simpl in *; eauto;
        exfalso; apply Hok; left; lia.
  - apply map_float_Raise in E as [Hex [msg ->]]. split; [eauto|].
    intros Hok. exfalso. apply Hok. now right.
Qed.

(** Too many fields, too few fields, and a field that is not a number. *)
Lemma get_truncated_feature_id_malformed_witness :
  is_ValueError (get_truncated_feature_id "1.5;2.5;3.5")
  /\ is_ValueError (get_truncated_feature_id "100.12345")
  /\ is_ValueError (get_truncated_feature_id "12.5;abc")
  /\ exists t, get_truncated_feature_id " 12.5 ;1e2" = OK t.
Proof.
  split; [|split; [|split]].
  - apply (proj1 (get_truncated_feature_id_malformed "1.5;2.5;3.5")).
    left. vm_compute. lia.
  - apply (proj1 (get_truncated_feature_id_malformed "100.12345")).
    left. vm_compute. lia.
  - apply (proj1 (get_truncated_feature_id_malformed "12.5;abc")).
    right. exists "abc". split; [right; left | reflexivity].
  - apply (proj2 (get_truncated_feature_id_malformed " 12.5 ;1e2")).
    intros [Hlen | (f & Hin & Hnone)].
    + vm_compute in Hlen. lia.
    + vm_compute in Hin.
      apply list_elem_of_In in Hin. destruct Hin as [<- | [<- | []]]; vm_compute in Hnone;
        discriminate.
Defined.

(** C4, as stated, fails: [nan] and [inf] read as floats, and are written
    back as they are, not as numerals with four decimals. *)
Lemma get_truncated_feature_id_nan_inf :
  split ";" "nan;inf" = ["nan"; "inf"]
  /\ float_of_str "nan" = Some S754_nan
  /\ float_of_str "inf" = Some (S754_infinity false)
  /\ get_truncated_feature_id "nan;inf" = OK "nan;inf"
  /\ forallb is_decimal4 (split ";" "nan;inf") = false.
Proof. repeat split; vm_compute; reflexivity. Qed.

(** C4, amended: for an identifier that splits on [;] into exactly two
    fields that read as floats, [get_truncated_feature_id] returns the two
    floats formatted, joined by [;]; a float with a numeric value is
    written as a numeral with exactly four decimals, of an integer number
    of 1/10000 nearest to it (rounded, not cut off); the others are
    written as [nan], [inf] or [-inf].  In particular
    ["100.12345;200.98765"] gives ["100.1235;200.9877"]. *)
Theorem get_truncated_feature_id_rounds (s a b : string) (x y : spec_float) :
  split ";" s = [a; b] -> float_of_str a = Some x -> float_of_str b = Some y ->
  get_truncated_feature_id s = OK (format_4f x +:+ ";" +:+ format_4f y)
  /\ (forall z, z = x \/ z = y ->
        if is_finite z
        then exists n, is_nearest4 z n
                       /\ format_4f z = render4 (float_sign z) n
                       /\ is_decimal4 (format_4f z) = true
        else format_4f z = "nan" \/ format_4f z = "inf" \/ format_4f z = "-inf")
  /\ get_truncated_feature_id "100.12345;200.98765" = OK "100.1235;200.9877".
Proof.
  intros Hs Ha Hb. split; [|split].
  - now apply (get_truncated_feature_id_two s a b).
  - intros z _. destruct (is_finite z) eqn:E.
    + now apply format_4f_finite.
    + now apply format_4f_not_finite.
  - vm_compute. reflexivity.
Qed.

(** The identifier of the example, whose fifth decimals round up, and one
    with a field that has no numeric value. *)
Lemma get_truncated_feature_id_rounds_witness :
  get_truncated_feature_id "100.12345;200.98765" = OK "100.1235;200.9877"
  /\ get_truncated_feature_id "1.00005;-inf" = OK "1.0001;-inf".
Proof.
  split.
  - exact (proj1 (get_truncated_feature_id_rounds
                    "100.12345;200.98765" "100.12345" "200.98765"
                    (S754_finite false 7045561439235133 (-46))
                    (S754_finite false 7071624262859935 (-45))
                    eq_refl eq_refl eq_refl)).
  - exact (proj1 (get_truncated_feature_id_rounds
                    "1.00005;-inf" "1.00005" "-inf" _ _ eq_refl eq_refl eq_refl)).
Defined.

End truncated_ids.

(** ** The mapping from truncated to full identifiers *)

Section mapping.

Lemma conflict_is_no_feature_id (fid t : string) :
  get_truncated_feature_id fid = OK t -> fid <> qurro_matching_conflict.
Proof. intros H ->. vm_compute in H. discriminate. Qed.

Lemma key_state_of_insert_other (d : gmap string string) (t k v : string) :
  k <> t -> key_state_of (<[t := v]> d) k = key_state_of d k.
Proof. intros Hne. unfold key_state_of. now rewrite lookup_insert_ne by congruence. Qed.

Lemma key_state_of_insert_conflict (d : gmap string string) (t : string) :
  key_state_of (<[t := qurro_matching_conflict]> d) t = Conflicted.
Proof. unfold key_state_of. now rewrite lookup_insert_eq. Qed.

Lemma key_state_of_insert_full (d : gmap string string) (t fid : string) :
  fid <> qurro_matching_conflict -> key_state_of (<[t := fid]> d) t = Mapped fid.
Proof.
  intros Hne. unfold key_state_of. rewrite lookup_insert_eq.
  destruct (String.eqb_spec fid qurro_matching_conflict); [contradiction | reflexivity].
Qed.

Lemma key_state_of_Unseen (d : gmap string string) (k : string) :
  key_state_of d k = Unseen <-> d !! k = None.
Proof.
  unfold key_state_of. destruct (d !! k) as [v|]; [|tauto].
  destruct (String.eqb v qurro_matching_conflict); split; discriminate.
Qed.

(** One pass through the loop body, for a well-formed identifier. *)
Lemma mapping_step_OK (d : gmap string string) (warnings : list string) (fid tfid : string) :
  get_truncated_feature_id fid = OK tfid ->
  mapping_step (d, warnings) fid
  = OK (match d !! tfid with
        | None => (<[tfid := fid]> d, warnings)
        | Some _ => (<[tfid := qurro_matching_conflict]> d,
                     (warnings ++ [collision_warning tfid])%list)
        end).
Proof.
  intros Ht. unfold mapping_step. rewrite Ht. simpl.
  destruct (d !! tfid); reflexivity.
Qed.

Lemma mapping_step_Raise (st : gmap string string * list string) (fid : string) (e : exn) :
  mapping_step st fid = Raise e -> get_truncated_feature_id fid = Raise e.
Proof.
  destruct st as [d w]. unfold mapping_step.
  destruct (get_truncated_feature_id fid) as [t|e'] eqn:E; simpl; [|congruence].
  destruct (d !! t); discriminate.
Qed.

Lemma mapping_step_malformed (st : gmap string string * list string) (fid : string) (e : exn) :
  get_truncated_feature_id fid = Raise e -> mapping_step st fid = Raise e.
Proof. intros H. destruct st as [d w]. unfold mapping_step. now rewrite H. Qed.

Lemma for_each_cons {A S : Type} (body : S -> A -> result S) (x : A) (xs : list A) (st : S) :
  for_each body (x :: xs) st = (st' ← body st x; for_each body xs st').
Proof. reflexivity. Qed.

Lemma bind_OK {A B : Type} (a : A) (f : A -> result B) : (x ← OK a; f x) = f a.
Proof. reflexivity. Qed.

Lemma bind_Raise {A B : Type} (e : exn) (f : A -> result B) :
  (x ← Raise e; f x) = Raise e.
Proof. reflexivity. Qed.

Lemma for_each_conflicted_stays (fids : list string) (st st' : gmap string string * list string)
    (k : string) :
  for_each mapping_step fids st = OK st' ->
  key_state_of (fst st) k = Conflicted -> key_state_of (fst st') k = Conflicted.
Proof.
  revert st; induction fids as [|fid fids IH]; intros [d w].
  - simpl. now intros [= <-].
  - rewrite for_each_cons.
    destruct (get_truncated_feature_id fid) as [t|e] eqn:Ht.
    + rewrite (mapping_step_OK d w fid t Ht), bind_OK. intros Hrest Hk.
      apply (IH _ Hrest).
      destruct (decide (k = t)) as [->|Hne].
      * unfold key_state_of in Hk. simpl in Hk.
        destruct (d !! t) as [v|] eqn:E; [|discriminate Hk].
        simpl. apply key_state_of_insert_conflict.
      * simpl in Hk. destruct (d !! t); simpl; now rewrite key_state_of_insert_other.
    + rewrite (mapping_step_malformed _ _ _ Ht). discriminate.
Qed.

Lemma for_each_well_formed (fids : list string) (st : gmap string string * list string) :
  (forall fid, fid ∈ fids -> exists t, get_truncated_feature_id fid = OK t) ->
  exists st', for_each mapping_step fids st = OK st'.
Proof.
  revert st; induction fids as [|fid fids IH]; intros [d w] Hwf; [simpl; eauto|].
  destruct (Hwf fid) as [t Ht]; [left|].
  rewrite for_each_cons, (mapping_step_OK d w fid t Ht), bind_OK.
  apply IH. intros f Hf. apply Hwf. now right.
Qed.

End mapping.

(** ** [read_gnps_feature_metadata_file] *)

Section reconciler.

Lemma truncates_to_true (k fid : string) :
  truncates_to k fid = true <-> get_truncated_feature_id fid = OK k.
Proof.
  unfold truncates_to. destruct (get_truncated_feature_id fid) as [t|e].
  - destruct (String.eqb_spec t k); split; congruence.
  - split; discriminate.
Qed.

Lemma count_truncated_cons (k fid : string) (fids : list string) :
  count_truncated k (fid :: fids)
  = ((if truncates_to k fid then 1 else 0) + count_truncated k fids)%nat.
Proof.
  unfold count_truncated. destruct (truncates_to k fid) eqn:E.
  - now rewrite filter_cons_True.
  - rewrite filter_cons_False; [reflexivity | congruence].
Qed.

Lemma first_truncated_cons (k fid : string) (fids : list string) :
  first_truncated k (fid :: fids)
  = if truncates_to k fid then Some fid else first_truncated k fids.
Proof.
  unfold first_truncated. destruct (truncates_to k fid) eqn:E.
  - now rewrite filter_cons_True.
  - rewrite filter_cons_False; [reflexivity | congruence].
Qed.

(** The dict at the end of the loop, key by key, from the dict at its
    start and the identifiers read. *)
Lemma for_each_lookup (fids : list string) (d d' : gmap string string)
    (w w' : list string) (k : string) :
  for_each mapping_step fids (d, w) = OK (d', w') ->
  d' !! k = match count_truncated k fids with
            | O => d !! k
            | S n => match d !! k, n with
                     | None, O => first_truncated k fids
                     | _, _ => Some qurro_matching_conflict
                     end
            end.
Proof.
  revert d w; induction fids as [|fid fids IH]; intros d w.
  - simpl. now intros [= <- <-].
  - rewrite for_each_cons.
    destruct (get_truncated_feature_id fid) as [t|e] eqn:Ht;
      [|rewrite (mapping_step_malformed _ _ _ Ht); discriminate].
    rewrite (mapping_step_OK d w fid t Ht), bind_OK.
    rewrite count_truncated_cons, first_truncated_cons.
    destruct (truncates_to k fid) eqn:Hk.
    + apply truncates_to_true in Hk. assert (t = k) as -> by congruence.
      destruct (d !! k) as [v|] eqn:Hd; intros Hrest; rewrite (IH _ _ Hrest);
        rewrite lookup_insert_eq; simpl; destruct (count_truncated k fids); reflexivity.
    + assert (t <> k) as Hne.
      { intros ->. apply truncates_to_true in Ht. congruence. }
      destruct (d !! t) as [v|] eqn:Hd; intros Hrest; rewrite (IH _ _ Hrest);
        rewrite lookup_insert_ne by exact Hne; reflexivity.
Qed.

Lemma build_mapping_conflict (fids : list string) (d : gmap string string)
    (w : list string) (k : string) :
  build_mapping fids = OK (d, w) -> (2 <= count_truncated k fids)%nat ->
  d !! k = Some qurro_matching_conflict.
Proof.
  intros Hb Hc. rewrite (for_each_lookup _ _ _ _ _ k Hb), lookup_empty.
  destruct (count_truncated k fids) as [|[|n]]; [lia | lia | reflexivity].
Qed.

Lemma build_mapping_unique (fids : list string) (d : gmap string string)
    (w : list string) (k f : string) :
  build_mapping fids = OK (d, w) -> count_truncated k fids = 1%nat ->
  f ∈ fids -> get_truncated_feature_id f = OK k ->
  d !! k = Some f.
Proof.
  intros Hb Hc Hin Hf. rewrite (for_each_lookup _ _ _ _ _ k Hb), lookup_empty, Hc.
  unfold first_truncated. unfold count_truncated in Hc.
  assert (Hmem : f ∈ filter (fun fid => truncates_to k fid = true) fids).
  { apply list_elem_of_filter. split; [now apply truncates_to_true | exact Hin]. }
  destruct (filter (fun fid => truncates_to k fid = true) fids) as [|x [|y l]];
    try discriminate.
  apply list_elem_of_In in Hmem. destruct Hmem as [-> | []]. reflexivity.
Qed.

Lemma build_mapping_empty : build_mapping [] = OK (∅, []).
Proof. reflexivity. Qed.

Lemma apply_lookup_OK (d : gmap string string) (tfids fids : list string) :
  apply_lookup d tfids = OK fids <-> Forall2 (fun t f => d !! t = Some f) tfids fids.
Proof.
  revert fids; induction tfids as [|t tfids IH]; intros fids; simpl.
  - split; [intros [= <-]; constructor | intros H; inversion H; reflexivity].
  - destruct (d !! t) as [f|] eqn:E.
    + destruct (apply_lookup d tfids) as [fs|e] eqn:E'.
      * rewrite bind_OK. split.
        -- intros [= <-]. constructor; [exact E | now apply IH].
        -- intros H. inversion H as [|? g ? gs Hg Hrest]; subst.
           apply IH in Hrest. congruence.
      * rewrite bind_Raise. split; [discriminate|].
        intros H. inversion H as [|? g ? gs Hg Hrest]; subst.
        apply IH in Hrest. discriminate.
    + split; [discriminate|]. intros H. inversion H; congruence.
Qed.

Lemma apply_lookup_missing (d : gmap string string) (t : string) (tfids : list string) :
  d !! t = None -> apply_lookup d (t :: tfids) = Raise (KeyError t).
Proof. intros H. simpl. now rewrite H. Qed.

Lemma iterrows_loop_filter (rows : list (nat * (gnps_row * string))) (acc : list nat) :
  iterrows_loop rows acc
  = (acc ++ map fst (filter (fun r => snd (snd r) = qurro_matching_conflict) rows))%list.
Proof.
  revert acc; induction rows as [|[idx [row full]] rows IH]; intros acc; simpl.
  - now rewrite app_nil_r.
  - destruct (String.eqb_spec full qurro_matching_conflict) as [E|E].
    + rewrite filter_cons_True by exact E. rewrite IH, <- app_assoc. reflexivity.
    + rewrite filter_cons_False by exact E. apply IH.
Qed.

Lemma filter_agree {A : Type} (P Q : A -> Prop)
    `{forall x, Decision (P x)} `{forall x, Decision (Q x)} (l : list A) :
  (forall x, x ∈ l -> (P x <-> Q x)) -> filter P l = filter Q l.
Proof.
  induction l as [|x l IH]; intros Hpq; [reflexivity|].
  assert (Hl : forall y, y ∈ l -> (P y <-> Q y)) by (intros y Hy; apply Hpq; now right).
  destruct (decide (P x)) as [Hp|Hp].
  - rewrite !filter_cons_True; [now rewrite IH | apply Hpq; [left | exact Hp] | exact Hp].
  - rewrite !filter_cons_False; [now apply IH | | exact Hp].
    intros Hq. apply Hp, Hpq; [left | exact Hq].
Qed.

Lemma elem_of_map_fst {A B : Type} (l : list (A * B)) (a : A) (b : B) :
  (a, b) ∈ l -> a ∈ map fst l.
Proof.
  intros H. apply list_elem_of_In, in_map_iff. exists (a, b).
  split; [reflexivity | now apply list_elem_of_In].
Qed.

Lemma NoDup_fst_functional {A : Type} (rows : list (nat * A)) (i : nat) (a b : A) :
  NoDup (map fst rows) -> (i, a) ∈ rows -> (i, b) ∈ rows -> a = b.
Proof.
  induction rows as [|[j c] rows IH]; intros Hnd Ha Hb; [inversion Ha|].
  simpl in Hnd. apply NoDup_cons in Hnd as [Hj Hnd].
  apply elem_of_cons in Ha, Hb. destruct Ha as [Ha|Ha], Hb as [Hb|Hb].
  - congruence.
  - injection Ha as -> ->. exfalso. apply Hj. now apply (elem_of_map_fst rows j b).
  - injection Hb as -> ->. exfalso. apply Hj. now apply (elem_of_map_fst rows j a).
  - now apply IH.
Qed.

(** Dropping the rows by the labels collected is dropping the rows that
    were marked, since no label occurs twice. *)
Lemma drop_index_marked {A : Type} (Q : nat * A -> Prop)
    (dQ : forall r, Decision (Q r)) (dN : forall r, Decision (~ Q r))
    (rows : list (nat * A)) :
  NoDup (map fst rows) ->
  drop_index rows (map fst (filter Q rows)) = filter (fun r => ~ Q r) rows.
Proof.
  intros Hnd. unfold drop_index. apply filter_agree. intros [i a] Hin. simpl.
  assert (Hiff : i ∈ map fst (filter Q rows) <-> Q (i, a)).
  { split.
    - intros Hi. apply list_elem_of_In, in_map_iff in Hi as ([j b] & Hj & Hb). simpl in Hj.
      subst j. apply list_elem_of_In, list_elem_of_filter in Hb as [Hpb Hb].
      now rewrite (NoDup_fst_functional rows i a b Hnd Hin Hb).
    - intros Hp. apply (elem_of_map_fst _ i a).
      apply list_elem_of_filter. split; assumption. }
  now rewrite Hiff.
Qed.

Lemma map_snd_filter {A B : Type} (P : B -> Prop) (dP : forall x, Decision (P x))
    (dP' : forall r : A * B, Decision (P (snd r))) (l : list (A * B)) :
  map snd (filter (fun r => P (snd r)) l) = filter P (map snd l).
Proof.
  induction l as [|[a b] l IH]; [reflexivity|]. simpl.
  destruct (decide (P b)) as [Hp|Hp].
  - rewrite !filter_cons_True by exact Hp. simpl. now rewrite IH.
  - rewrite !filter_cons_False by exact Hp. exact IH.
Qed.

Lemma zip_seq_labels {A : Type} (l : list A) (j : nat) :
  map fst (zip (seq j (length l)) l) = seq j (length l)
  /\ map snd (zip (seq j (length l)) l) = l.
Proof.
  revert j; induction l as [|x l IH]; intros j; simpl; [split; reflexivity|].
  destruct (IH (S j)) as [H1 H2]. now rewrite H1, H2.
Qed.

Lemma Forall2_zip_elem {A B : Type} (R : A -> B -> Prop) (l : list A) (k : list B)
    (a : A) (b : B) :
  Forall2 R l k -> (a, b) ∈ zip l k -> R a b.
Proof.
  induction 1 as [|x y l k Hxy _ IH]; simpl; intros Hin; [inversion Hin|].
  inversion Hin; subst; auto.
Qed.

Lemma Forall2_zip_left {A B : Type} (R : A -> B -> Prop) (l : list A) (k : list B) (a : A) :
  Forall2 R l k -> a ∈ l -> exists b, (a, b) ∈ zip l k.
Proof.
  induction 1 as [|x y l k Hxy _ IH]; simpl; intros Hin; [inversion Hin|].
  inversion Hin; subst.
  - exists y. left.
  - destruct (IH ltac:(assumption)) as [b Hb]. exists b. now right.
Qed.

(** The function after the two lookups have succeeded: the rows that are
    not marked as conflicts, under their full identifiers. *)
Lemma reconcile_resolved (feature_ranks_index : list string) (metadata_df : list gnps_row)
    (d : gmap string string) (warnings full_ids : list string) :
  build_mapping feature_ranks_index = OK (d, warnings) ->
  apply_lookup d (map qurro_trunc_feature_id metadata_df) = OK full_ids ->
  reconcile feature_ranks_index metadata_df
  = let kept := filter (fun r => snd r <> qurro_matching_conflict) (zip metadata_df full_ids) in
    if bool_decide (NoDup (map snd kept)) then
      OK (mkDataFrame (map snd kept) ["LibraryID"]
                      [map (fun r => Str (LibraryID (fst r))) kept], warnings)
    else Raise (ValueError "Index has duplicate keys").
Proof.
  intros Hb Hl. unfold reconcile. rewrite Hb, bind_OK. cbv beta iota. rewrite Hl, bind_OK.
  apply apply_lookup_OK, Forall2_length in Hl. rewrite length_map in Hl.
  assert (Hlen : length (zip metadata_df full_ids) = length metadata_df).
  { rewrite length_zip. lia. }
  set (rows := zip (seq 0 (length metadata_df)) (zip metadata_df full_ids)).
  destruct (zip_seq_labels (zip metadata_df full_ids) 0) as [Hfst Hsnd].
  rewrite Hlen in Hfst, Hsnd. fold rows in Hfst, Hsnd.
  rewrite iterrows_loop_filter, app_nil_l.
  rewrite (drop_index_marked
             (fun r : nat * (gnps_row * string) => snd (snd r) = qurro_matching_conflict)
             _ _ rows)
    by (rewrite Hfst; apply NoDup_seq).
  set (kept_rows := filter _ rows).
  assert (Hkept : map snd kept_rows
                  = filter (fun r => snd r <> qurro_matching_conflict)
                           (zip metadata_df full_ids)).
  { unfold kept_rows.
    rewrite (map_snd_filter (fun p : gnps_row * string => snd p <> qurro_matching_conflict)
               _ _ rows).
    now rewrite Hsnd. }
  cbv zeta. rewrite <- Hkept, !map_map. reflexivity.
Qed.

End reconciler.

Section reconcile_claims.

(** C2, as stated, fails: with no reference identifier the lookup of the
    first external row raises a [KeyError]; nothing is returned. *)
Lemma reconcile_empty_reference_raises :
  build_mapping [] = OK (∅, [])
  /\ reconcile [] example_metadata_df = Raise (KeyError "1.0000;2.0000")
  /\ ~ exists df warnings, reconcile [] example_metadata_df = OK (df, warnings).
Proof.
  split; [reflexivity|]. split; [vm_compute; reflexivity|].
  intros (df & w & H). vm_compute in H. discriminate.
Qed.

(** C2, amended: with a reference table without rows the mapping is empty;
    [reconcile] returns a table without rows when the external table has
    no rows, and otherwise raises the [KeyError] of the lookup of the
    first external row's truncated identifier. *)
Theorem reconcile_empty_reference (metadata_df : list gnps_row) :
  build_mapping [] = OK (∅, [])
  /\ match metadata_df with
     | [] => reconcile [] metadata_df = OK (mkDataFrame [] ["LibraryID"] [[]], [])
     | row :: _ => reconcile [] metadata_df = Raise (KeyError (qurro_trunc_feature_id row))
     end.
Proof.
  split; [reflexivity|]. destruct metadata_df as [|row rows]; [reflexivity|].
  unfold reconcile. rewrite build_mapping_empty, bind_OK. cbv beta iota.
  rewrite map_cons, apply_lookup_missing by apply lookup_empty. reflexivity.
Qed.

End reconcile_claims.

(** ** [read_metadata_file] *)

Section stripping.
Variable sp : ascii -> bool.

Lemma lstrip_split (s : string) :
  exists pre, s = pre +:+ lstrip sp s /\ all_space sp pre = true.
Proof.
  induction s as [|c s IH]; [exists ""; split; reflexivity|]. simpl.
  destruct (sp c) eqn:E.
  - destruct IH as (pre & Hs & Hpre). exists (String c pre). split.
    + rewrite append_cons. now f_equal.
    + unfold all_space; simpl. now rewrite E.
  - exists "". split; reflexivity.
Qed.

Lemma lstrip_head (s : string) (c : ascii) :
  head_char (lstrip sp s) = Some c -> sp c = false.
Proof.
  induction s as [|x s IH]; simpl; [discriminate|].
  destruct (sp x) eqn:E; [exact IH|]. unfold head_char; simpl. congruence.
Qed.

Lemma rstrip_split (s : string) :
  exists post, s = rstrip sp s +:+ post /\ all_space sp post = true.
Proof.
  induction s as [|c s IH]; [exists ""; split; reflexivity|]. simpl.
  destruct IH as (post & Hs & Hpost).
  destruct (rstrip sp s) as [|x r] eqn:Hr.
  - rewrite append_nil_l in Hs. subst post. destruct (sp c) eqn:E.
    + exists (String c s). split; [reflexivity|]. unfold all_space; simpl. now rewrite E.
    + exists s. split; [reflexivity | exact Hpost].
  - exists post. split; [|exact Hpost]. rewrite append_cons. now f_equal.
Qed.

Lemma rstrip_last (s : string) (c : ascii) :
  last_char (rstrip sp s) = Some c -> sp c = false.
Proof.
  induction s as [|x s IH]; simpl; [discriminate|].
  destruct (rstrip sp s) as [|y r] eqn:Hr.
  - destruct (sp x) eqn:E; [discriminate|]. unfold last_char; simpl. congruence.
  - unfold last_char in *. simpl in *. exact IH.
Qed.

Lemma rstrip_head (s : string) (c : ascii) :
  head_char (rstrip sp s) = Some c -> head_char s = Some c.
Proof.
  destruct s as [|x s]; simpl; [discriminate|].
  destruct (rstrip sp s) as [|y r]; [destruct (sp x); [discriminate|] |]; auto.
Qed.

End stripping.

Section loader.

Lemma all_space_app (sp : ascii -> bool) (a b : string) :
  all_space sp (a +:+ b) = all_space sp a && all_space sp b.
Proof. unfold all_space. now rewrite chars_app, forallb_app. Qed.

(** [strip] removes a run of whitespace at each end, and what is left
    neither starts nor ends with whitespace. *)
Lemma strip_split (s : string) :
  exists pre post,
    s = pre +:+ strip s +:+ post
    /\ all_space isspace pre = true /\ all_space isspace post = true
    /\ no_outer_space isspace (strip s).
Proof.
  unfold strip.
  destruct (lstrip_split isspace s) as (pre & Hs & Hpre).
  destruct (rstrip_split isspace (lstrip isspace s)) as (post & Hl & Hpost).
  exists pre, post. split; [|split; [exact Hpre | split; [exact Hpost|]]].
  - rewrite <- Hl. exact Hs.
  - intros c [Hc|Hc].
    + apply rstrip_head in Hc. now apply (lstrip_head isspace s).
    + now apply (rstrip_last isspace (lstrip isspace s)).
Qed.

(** Text is stripped to nothing exactly when it is whitespace only. *)
Lemma strip_empty_iff (s : string) : strip s = "" <-> all_space isspace s = true.
Proof.
  destruct (strip_split s) as (pre & post & Hs & Hpre & Hpost & Hno).
  split.
  - intros He. rewrite He, append_nil_l in Hs. rewrite Hs, all_space_app, Hpre, Hpost.
    reflexivity.
  - intros Hall. destruct (strip s) as [|c r] eqn:E; [reflexivity|]. exfalso.
    assert (Hc : isspace c = false) by (apply Hno; left; reflexivity).
    rewrite Hs, !all_space_app in Hall.
    apply andb_prop in Hall as [_ Hall]. apply andb_prop in Hall as [Hall _].
    unfold all_space in Hall. simpl in Hall. rewrite Hc in Hall. discriminate.
Qed.

Lemma normalize_cell_code (c : cell) : where_not_empty (str_strip c) = normalize_cell c.
Proof.
  destruct c as [|s]; [reflexivity|]. unfold where_not_empty; simpl.
  destruct (String.eqb_spec (strip s) "") as [E|E].
  - rewrite E. reflexivity.
  - rewrite bool_decide_eq_true_2; [reflexivity | congruence].
Qed.

Lemma isna_normalize_cell (c : cell) : isna (normalize_cell c) = blank c.
Proof. destruct c as [|s]; [reflexivity|]. simpl. now destruct (String.eqb (strip s) ""). Qed.

(** A normalised cell is missing, or a string that is not empty and has
    no whitespace at its ends. *)
Lemma normalize_cell_shape (c : cell) :
  match normalize_cell c with
  | NaN => blank c = true
  | Str t => t <> "" /\ no_outer_space isspace t
             /\ exists s, c = Str s /\ t = strip s
  end.
Proof.
  destruct c as [|s]; [reflexivity|]. simpl.
  destruct (String.eqb_spec (strip s) "") as [E|E]; [reflexivity|].
  split; [exact E|]. split; [|eauto].
  destruct (strip_split s) as (_ & _ & _ & _ & _ & Hno). exact Hno.
Qed.

Lemma existsb_isna_normalize (ids : list cell) :
  existsb isna (map normalize_cell ids) = existsb blank ids.
Proof.
  induction ids as [|c ids IH]; [reflexivity|]. simpl.
  now rewrite isna_normalize_cell, IH.
Qed.

Lemma normalize_metadata_spec (metadata_df : DataFrame nat)
    (id_label : string) (other_labels : list string)
    (ids : list cell) (others : list (list cell)) :
  columns metadata_df = id_label :: other_labels ->
  values metadata_df = ids :: others ->
  normalize_metadata metadata_df
  = if existsb blank ids then Raise (ValueError "Empty ID found in metadata file.")
    else OK (mkDataFrame (map normalize_cell ids) other_labels
                         (map (map normalize_cell) others)).
Proof.
  intros Hc Hv. unfold normalize_metadata. simpl. rewrite Hc, Hv. simpl.
  rewrite !map_map.
  rewrite (map_ext _ _ normalize_cell_code ids).
  rewrite existsb_isna_normalize.
  destruct (existsb blank ids); [reflexivity|].
  do 2 f_equal. apply map_ext. intros col.
  rewrite map_map. apply map_ext, normalize_cell_code.
Qed.

End loader.

Section loader_claims.
Variable pd_read_csv : filesystem -> md_file_loc -> list nat -> result (DataFrame nat).

Lemma read_metadata_file_unfold (fs : filesystem) (src src' : md_file_loc)
    (q2_lines : list nat) (metadata_df : DataFrame nat) :
  get_q2_comment_lines fs src = OK (q2_lines, src') ->
  pd_read_csv fs src' q2_lines = OK metadata_df ->
  read_metadata_file pd_read_csv fs src = normalize_metadata metadata_df.
Proof.
  intros Hq Hr. unfold read_metadata_file. rewrite Hq, bind_OK. cbv beta iota.
  now rewrite Hr, bind_OK.
Qed.

Lemma existsb_blank_Exists (ids : list cell) :
  existsb blank ids = true <-> Exists (fun c => blank c = true) ids.
Proof.
  induction ids as [|c ids IH]; simpl.
  - split; [discriminate | intros H; inversion H].
  - rewrite orb_true_iff, IH, Exists_cons. reflexivity.
Qed.

(** C7: every cell of the table read is stripped of surrounding whitespace
    and is missing if nothing is left (so a value of two spaces is missing,
    not an empty string); [read_metadata_file] raises
    [ValueError("Empty ID found in metadata file.")] when a cell of the
    first column is missing after that, in particular when it was only
    whitespace, and otherwise returns the normalised table with the first
    column as row labels. *)
Theorem read_metadata_file_normalizes
    (fs : filesystem) (src src' : md_file_loc) (q2_lines : list nat)
    (metadata_df : DataFrame nat) (id_label : string) (other_labels : list string)
    (ids : list cell) (others : list (list cell)) :
  get_q2_comment_lines fs src = OK (q2_lines, src') ->
  pd_read_csv fs src' q2_lines = OK metadata_df ->
  columns metadata_df = id_label :: other_labels ->
  values metadata_df = ids :: others ->
  (Exists (fun c => blank c = true) ids ->
   read_metadata_file pd_read_csv fs src
   = Raise (ValueError "Empty ID found in metadata file."))
  /\ (~ Exists (fun c => blank c = true) ids ->
      read_metadata_file pd_read_csv fs src
      = OK (mkDataFrame (map normalize_cell ids) other_labels
                        (map (map normalize_cell) others)))
  /\ (forall c, where_not_empty (str_strip c) = normalize_cell c
                /\ match normalize_cell c with
                   | NaN => blank c = true
                   | Str t => t <> "" /\ no_outer_space isspace t
                              /\ exists s, c = Str s /\ t = strip s
                   end)
  /\ (forall s, blank (Str s) = true <-> all_space isspace s = true)
  /\ normalize_cell (Str "  ") = NaN.
Proof.
  intros Hq Hr Hc Hv.
  rewrite (read_metadata_file_unfold _ _ _ _ _ Hq Hr).
  rewrite (normalize_metadata_spec _ _ _ _ _ Hc Hv).
  split; [|split; [|split; [|split]]].
  - intros Hex. apply existsb_blank_Exists in Hex. now rewrite Hex.
  - intros Hnex. destruct (existsb blank ids) eqn:E; [|reflexivity].
    exfalso. now apply Hnex, existsb_blank_Exists.
  - intros c. split; [apply normalize_cell_code | apply normalize_cell_shape].
  - intros s. simpl. rewrite <- strip_empty_iff.
    destruct (String.eqb_spec (strip s) ""); split; congruence.
  - reflexivity.
Qed.

End loader_claims.

(** A table whose identifiers are present: the cells are stripped and the
    value of two spaces becomes missing.  A table with an identifier of
    three spaces is refused. *)
Lemma read_metadata_file_normalizes_witness :
  read_metadata_file (fun _ _ _ => OK example_frame) ∅ (StringIO example_text 0)
  = OK (mkDataFrame [Str "s1"; Str "s2"] ["ph"] [[NaN; Str "7"]])
  /\ read_metadata_file (fun _ _ _ => OK example_frame_blank_id) ∅ (StringIO example_text 0)
     = Raise (ValueError "Empty ID found in metadata file.").
Proof.
  split.
  - destruct (read_metadata_file_normalizes (fun _ _ _ => OK example_frame)
                ∅ (StringIO example_text 0) (StringIO example_text 0) [1; 2; 3]%nat
                example_frame "sampleid" ["ph"] [Str " s1 "; Str "s2"] [[Str "  "; Str " 7"]]
                eq_refl eq_refl eq_refl eq_refl) as (_ & Hok & _).
    rewrite Hok; [vm_compute; reflexivity|].
    intros Hex. apply existsb_blank_Exists in Hex. vm_compute in Hex. discriminate.
  - destruct (read_metadata_file_normalizes (fun _ _ _ => OK example_frame_blank_id)
                ∅ (StringIO example_text 0) (StringIO example_text 0) [1; 2; 3]%nat
                example_frame_blank_id "sampleid" ["ph"] [Str "s1"; Str "   "]
                [[Str "6"; Str "7"]]
                eq_refl eq_refl eq_refl eq_refl) as (Hraise & _).
    apply Hraise. apply Exists_cons_tl, Exists_cons_hd. reflexivity.
Defined.

(** ** The whole of [read_gnps_feature_metadata_file] *)

Lemma read_gnps_feature_metadata_file_unfold
    (pd_read_csv : filesystem -> md_file_loc -> list nat -> result (list gnps_row))
    (fs : filesystem) (src src' : md_file_loc) (q2_lines : list nat)
    (metadata_df : list gnps_row) (feature_ranks_df : DataFrame string) :
  get_q2_comment_lines fs src = OK (q2_lines, src') ->
  pd_read_csv fs src' q2_lines = OK metadata_df ->
  read_gnps_feature_metadata_file pd_read_csv fs src feature_ranks_df
  = reconcile (index feature_ranks_df) metadata_df.
Proof.
  intros Hq Hr. unfold read_gnps_feature_metadata_file. rewrite Hq, bind_OK. cbv beta iota.
  now rewrite Hr, bind_OK.
Qed.

(** * Further properties of the module *)

(** ** [ensure_df_headers_unique] and [validate_df] *)

Section validator_facts.
Context {I : Type} `{EqDecision I}.

Lemma ensure_df_headers_unique_cases (df : DataFrame I) (name : string) :
  ensure_df_headers_unique df name
  = if bool_decide (NoDup (index df)) then
      if bool_decide (NoDup (columns df)) then OK tt
      else Raise (ValueError ("Columns of the " +:+ name +:+ " DataFrame are not unique."))
    else Raise (ValueError ("Indices of the " +:+ name +:+ " DataFrame are not unique.")).
Proof.
  unfold ensure_df_headers_unique, shape; simpl. rewrite !unique_length_eqb.
  destruct (bool_decide (NoDup (index df))), (bool_decide (NoDup (columns df))); reflexivity.
Qed.

(** X1: [ensure_df_headers_unique] returns exactly when the row labels are
    pairwise distinct and the column labels are pairwise distinct.  If a
    row label is repeated it raises the error about the indices, whether
    or not a column label is repeated too; the error about the columns is
    raised only when the row labels are distinct. *)
Theorem ensure_df_headers_unique_iff (df : DataFrame I) (name : string) :
  (ensure_df_headers_unique df name = OK tt <-> NoDup (index df) /\ NoDup (columns df))
  /\ (ensure_df_headers_unique df name
      = Raise (ValueError ("Indices of the " +:+ name +:+ " DataFrame are not unique."))
      <-> ~ NoDup (index df))
  /\ (ensure_df_headers_unique df name
      = Raise (ValueError ("Columns of the " +:+ name +:+ " DataFrame are not unique."))
      <-> NoDup (index df) /\ ~ NoDup (columns df)).
Proof.
  rewrite ensure_df_headers_unique_cases.
  destruct (bool_decide (NoDup (index df))) eqn:Ei;
    destruct (bool_decide (NoDup (columns df))) eqn:Ec;
    try apply bool_decide_eq_true in Ei; try apply bool_decide_eq_false in Ei;
    try apply bool_decide_eq_true in Ec; try apply bool_decide_eq_false in Ec;
    (split; [|split]); split; try tauto; discriminate.
Qed.

(** X2: [validate_df] returns exactly when the labels are unique and the
    table has at least [min_row_ct] rows and [min_col_ct] columns; any
    failure is a [ValueError]; and a table that passes also passes for
    smaller minimum counts. *)
Theorem validate_df_iff (df : DataFrame I) (name : string) (min_row_ct min_col_ct : Z) :
  (validate_df df name min_row_ct min_col_ct = OK tt
   <-> NoDup (index df) /\ NoDup (columns df)
       /\ min_row_ct <= Z.of_nat (length (index df))
       /\ min_col_ct <= Z.of_nat (length (columns df)))
  /\ (validate_df df name min_row_ct min_col_ct = OK tt
      \/ is_ValueError (validate_df df name min_row_ct min_col_ct))
  /\ (forall r c, r <= min_row_ct -> c <= min_col_ct ->
                  validate_df df name min_row_ct min_col_ct = OK tt ->
                  validate_df df name r c = OK tt).
Proof.
  assert (Hiff : forall r c,
             validate_df df name r c = OK tt
             <-> NoDup (index df) /\ NoDup (columns df)
                 /\ r <= Z.of_nat (length (index df))
                 /\ c <= Z.of_nat (length (columns df))).
  { intros r c. unfold validate_df. rewrite ensure_df_headers_unique_cases.
    unfold shape; simpl.
    destruct (bool_decide (NoDup (index df))) eqn:Ei;
      [apply bool_decide_eq_true in Ei | apply bool_decide_eq_false in Ei].
    2:{ split; [discriminate | tauto]. }
    destruct (bool_decide (NoDup (columns df))) eqn:Ec;
      [apply bool_decide_eq_true in Ec | apply bool_decide_eq_false in Ec].
    2:{ split; [discriminate | tauto]. }
    rewrite bind_OK.
    destruct (Z.ltb_spec (Z.of_nat (length (index df))) r).
    { split; [discriminate | lia]. }
    destruct (Z.ltb_spec (Z.of_nat (length (columns df))) c).
    { split; [discriminate | lia]. }
    split; [intros _; repeat split; assumption || lia | reflexivity]. }
  split; [apply Hiff|]. split.
  - unfold validate_df, is_ValueError. rewrite ensure_df_headers_unique_cases.
    destruct (bool_decide (NoDup (index df))); [|right; eauto].
    destruct (bool_decide (NoDup (columns df))); [|right; eauto].
    rewrite bind_OK.
    destruct (_ <? min_row_ct); [right; eauto|].
    destruct (_ <? min_col_ct); [right; eauto | left; reflexivity].
  - intros r c Hr Hc Hok. apply Hiff. apply Hiff in Hok. intuition lia.
Qed.

End validator_facts.

(** ** [fix_id] and [escape_columns] *)

Section escaper_facts.

Lemma fix_id_app (a b : string) : fix_id (a +:+ b) = fix_id a +:+ fix_id b.
Proof.
  apply chars_inj. rewrite chars_app, !chars_fix_id, chars_app, map_app. reflexivity.
Qed.

(** X3: [fix_id] works piece by piece: the escaped form of a concatenation
    is the concatenation of the escaped forms, and escaping keeps the
    length. *)
Theorem fix_id_concat (a b : string) :
  fix_id (a +:+ b) = fix_id a +:+ fix_id b
  /\ String.length (fix_id a) = String.length a.
Proof.
  split; [apply fix_id_app|].
  rewrite !string_length_chars, chars_fix_id. apply length_map.
Qed.

Lemma fix_char_fixed_iff (c : ascii) : fix_char c = c <-> is_trigger c = false.
Proof.
  split; [|apply fix_char_untriggered].
  intros H. rewrite <- H. apply fix_char_not_trigger.
Qed.

(** X4: [fix_id] leaves an identifier as it is exactly when the identifier
    has none of the characters that are replaced. *)
Theorem fix_id_unchanged_iff (s : string) :
  fix_id s = s <-> Forall (fun c => is_trigger c = false) (chars s).
Proof.
  induction s as [|c s IH]; [split; [constructor | reflexivity]|].
  rewrite fix_id_cons. simpl. rewrite Forall_cons. split.
  - intros [= Hc Hs]. split; [now apply fix_char_fixed_iff | now apply IH].
  - intros [Hc Hs]. f_equal; [now apply fix_char_fixed_iff | now apply IH].
Qed.

Context {I : Type} `{EqDecision I}.

Lemma escape_columns_cases (df : DataFrame I) :
  escape_columns df
  = if bool_decide (NoDup (index df)) then
      if bool_decide (NoDup (map fix_id (columns df))) then
        OK (mkDataFrame (index df) (map fix_id (columns df)) (values df))
      else Raise (ValueError
                    "Columns of the escape_columns() DataFrame DataFrame are not unique.")
    else Raise (ValueError
                  "Indices of the escape_columns() DataFrame DataFrame are not unique.").
Proof.
  unfold escape_columns. rewrite escape_columns_loop_map, ensure_df_headers_unique_cases.
  simpl. destruct (bool_decide (NoDup (index df))); [|reflexivity].
  destruct (bool_decide (NoDup (map fix_id (columns df)))); reflexivity.
Qed.

(** X5: a table that [escape_columns] returns is accepted by
    [escape_columns] again and returned unchanged; it has the row labels
    and the cells of the table given and as many columns. *)
Theorem escape_columns_again (df df' : DataFrame I) :
  escape_columns df = OK df' ->
  escape_columns df' = OK df'
  /\ index df' = index df /\ values df' = values df
  /\ length (columns df') = length (columns df).
Proof.
  rewrite escape_columns_cases.
  destruct (bool_decide (NoDup (index df))) eqn:Ei; [|discriminate].
  destruct (bool_decide (NoDup (map fix_id (columns df)))) eqn:Ec; [|discriminate].
  intros [= <-]. rewrite escape_columns_cases. simpl.
  assert (Hmm : map fix_id (map fix_id (columns df)) = map fix_id (columns df)).
  { rewrite map_map. apply map_ext. intros s. apply chars_inj.
    rewrite !chars_fix_id, map_map. apply map_ext, fix_char_idempotent. }
  rewrite Hmm, Ei, Ec. repeat split. apply length_map.
Qed.

(** X6: [escape_columns] checks the row labels too: for a table with a
    repeated row label it raises the error about the indices, whatever
    the column labels are. *)
Theorem escape_columns_repeated_index (df : DataFrame I) :
  ~ NoDup (index df) ->
  escape_columns df
  = Raise (ValueError "Indices of the escape_columns() DataFrame DataFrame are not unique.").
Proof.
  intros H. rewrite escape_columns_cases. now rewrite bool_decide_eq_false_2.
Qed.

End escaper_facts.

Lemma escape_columns_again_witness :
  escape_columns (mkDataFrame ["s1"; "s2"] ["a:b"; "a(0)"] [[Str "1"; Str "2"]; [NaN; Str "3"]])
  = OK (mkDataFrame ["s1"; "s2"] ["a:b"; "a(0)"] [[Str "1"; Str "2"]; [NaN; Str "3"]]).
Proof.
  apply (escape_columns_again
           (mkDataFrame ["s1"; "s2"] ["a.b"; "a[0]"] [[Str "1"; Str "2"]; [NaN; Str "3"]])).
  vm_compute. reflexivity.
Defined.

Lemma escape_columns_repeated_index_witness :
  escape_columns (mkDataFrame ["s1"; "s1"] ["a"; "b"] [[Str "1"; Str "2"]; [NaN; Str "3"]])
  = Raise (ValueError "Indices of the escape_columns() DataFrame DataFrame are not unique.").
Proof.
  apply escape_columns_repeated_index. simpl.
  intros H. apply NoDup_cons in H as [H _]. apply H. left.
Defined.

Lemma validate_df_iff_witness :
  validate_df (mkDataFrame ["s1"; "s2"] ["a"; "b"] [[Str "1"; Str "2"]; [NaN; Str "3"]])
              "metadata" 1 1 = OK tt.
Proof.
  apply (proj2 (proj2 (validate_df_iff
                         (mkDataFrame ["s1"; "s2"] ["a"; "b"] [[Str "1"; Str "2"]; [NaN; Str "3"]])
                         "metadata" 2 2)) 1 1); [lia | lia | reflexivity].
Defined.

(** ** [replace_nan] *)

Section replace_nan_facts.
Context {I : Type}.

Lemma where_replace_cell (c : cell) :
  where_not_empty (replace_nan_cell (Str "") c) = where_not_empty c.
Proof. destruct c as [|s]; reflexivity. Qed.

Lemma replace_where_cell (c : cell) :
  replace_nan_cell (Str "") (where_not_empty c) = replace_nan_cell (Str "") c.
Proof.
  destruct c as [|s]; [reflexivity|]. unfold where_not_empty.
  destruct (decide (Str s = Str "")) as [E|E].
  - rewrite bool_decide_eq_false_2 by (intros H; apply H, E). rewrite E. reflexivity.
  - rewrite bool_decide_eq_true_2 by exact E. reflexivity.
Qed.

Lemma where_not_empty_id (c : cell) : c <> Str "" -> where_not_empty c = c.
Proof. intros H. unfold where_not_empty. now rewrite bool_decide_eq_true_2. Qed.

(** X7: [replace_nan] with a string leaves no missing cell, keeps every
    cell that was not missing, and keeps the labels.  Replacing the missing
    cells by the empty string is undone by the step of the loader that
    turns empty strings into missing cells, for a table that holds no
    empty string. *)
Theorem replace_nan_fills (df : DataFrame I) (v : string) :
  index (replace_nan df (Str v)) = index df
  /\ columns (replace_nan df (Str v)) = columns df
  /\ Forall (Forall (fun c => isna c = false)) (values (replace_nan df (Str v)))
  /\ Forall2 (Forall2 (fun c c' => c' = match c with NaN => Str v | Str _ => c end))
             (values df) (values (replace_nan df (Str v)))
  /\ (Forall (Forall (fun c => c <> Str "")) (values df) ->
      map (map where_not_empty) (values (replace_nan df (Str ""))) = values df).
Proof.
  split; [reflexivity|]. split; [reflexivity|]. simpl. split; [|split].
  - apply Forall_forall. intros col Hcol.
    apply list_elem_of_In, in_map_iff in Hcol as (col0 & <- & _).
    apply Forall_forall. intros c Hc.
    apply list_elem_of_In, in_map_iff in Hc as (c0 & <- & _). now destruct c0.
  - induction (values df) as [|col cols IH]; simpl; constructor; [|exact IH].
    induction col as [|c col IHc]; simpl; constructor; [now destruct c | exact IHc].
  - intros Hne. rewrite map_map.
    induction Hne as [|col cols Hcol _ IH]; [reflexivity|]. simpl. f_equal; [|exact IH].
    rewrite map_map. induction Hcol as [|c col Hc _ IHc]; [reflexivity|]. simpl.
    f_equal; [|exact IHc]. rewrite where_replace_cell. now apply where_not_empty_id.
Qed.

End replace_nan_facts.

Lemma replace_nan_fills_witness :
  map (map where_not_empty)
      (values (replace_nan (mkDataFrame ["s1"; "s2"] ["a"] [[NaN; Str "x"]]) (Str "")))
  = [[NaN; Str "x"]].
Proof.
  apply (replace_nan_fills (mkDataFrame ["s1"; "s2"] ["a"] [[NaN; Str "x"]]) "").
  repeat constructor; discriminate.
Defined.

(** ** [iterate_over_file_obj_lines] *)

Section scanner_facts.

Lemma leading_q2_run (pre rest : list string) (d : string) :
  Forall (fun l => startswith l "#q2:" = true) pre ->
  startswith d "#q2:" = false ->
  leading_q2 (pre ++ d :: rest) = length pre.
Proof.
  intros Hpre Hd. induction Hpre as [|l pre Hl _ IH]; simpl.
  - now rewrite Hd.
  - now rewrite Hl, IH.
Qed.

Lemma leading_q2_all (pre : list string) :
  Forall (fun l => startswith l "#q2:" = true) pre -> leading_q2 pre = length pre.
Proof.
  intros Hpre. induction Hpre as [|l pre Hl _ IH]; simpl; [reflexivity|].
  now rewrite Hl, IH.
Qed.

(** X8: the scan stops at the first line after the header that does not
    start with [#q2:]: whatever follows that line, [#q2:] lines included,
    is not reported.  The header is never reported, even if it starts with
    [#q2:].  If every line after the header starts with [#q2:], all of
    them are reported. *)
Theorem iterate_stops_at_first_other_line
    (header d : string) (pre rest : list string) :
  Forall (fun l => startswith l "#q2:" = true) pre ->
  startswith d "#q2:" = false ->
  iterate_over_file_obj_lines (header :: pre ++ d :: rest) = seq 1 (length pre)
  /\ iterate_over_file_obj_lines (header :: pre) = seq 1 (length pre)
  /\ iterate_over_file_obj_lines [header] = [].
Proof.
  intros Hpre Hd. rewrite !iterate_over_file_obj_lines_seq. simpl.
  rewrite (leading_q2_run pre rest d Hpre Hd), (leading_q2_all pre Hpre).
  repeat split.
Qed.

End scanner_facts.

(** A directive line after a data line is not reported, and a header that
    starts with [#q2:] is not reported. *)
Lemma iterate_stops_at_first_other_line_witness :
  iterate_over_file_obj_lines
    ["#q2:id" +:+ LF; "#q2:types" +:+ LF; "s1" +:+ LF; "#q2:late" +:+ LF]
  = [1%nat].
Proof.
  apply (iterate_stops_at_first_other_line
           ("#q2:id" +:+ LF) ("s1" +:+ LF) ["#q2:types" +:+ LF] ["#q2:late" +:+ LF]).
  - repeat constructor.
  - reflexivity.
Defined.

(** ** [get_truncated_feature_id] on its own results *)

Section truncated_id_facts.

Lemma numeral_char_plain (c : ascii) :
  numeral_char c = true ->
  c_isspace c = false /\ Ascii.eqb c "_" = false /\ Ascii.eqb c ";" = false.
Proof. destruct c as [[] [] [] [] [] [] [] []]; (discriminate || (repeat split)). Qed.

Lemma is_digit_not_plus (c : ascii) : is_digit c = true -> Ascii.eqb c "+" = false.
Proof. destruct c as [[] [] [] [] [] [] [] []]; (reflexivity || discriminate). Qed.

Lemma all_digits_numeral (s : string) :
  all_digits s = true -> Forall (fun c => numeral_char c = true) (chars s).
Proof.
  unfold all_digits. intros H. apply Forall_forall. intros c Hc.
  rewrite forallb_forall in H. unfold numeral_char.
  rewrite (H c) by now apply list_elem_of_In. reflexivity.
Qed.

Lemma split_plain (sep : ascii) (s : string) :
  Forall (fun c => Ascii.eqb c sep = false) (chars s) -> split sep s = [s].
Proof.
  induction s as [|c s IH]; [reflexivity|]. simpl. rewrite Forall_cons.
  intros [Hc Hs]. now rewrite Hc, (IH Hs).
Qed.

Lemma split_at_sep (sep : ascii) (a b : string) :
  Forall (fun c => Ascii.eqb c sep = false) (chars a) ->
  split sep (a +:+ String sep b) = a :: split sep b.
Proof.
  induction a as [|c a IH].
  - intros _. rewrite append_nil_l. simpl. now rewrite Ascii.eqb_refl.
  - simpl chars. rewrite Forall_cons. intros [Hc Ha].
    rewrite append_cons. simpl. now rewrite Hc, (IH Ha).
Qed.

Lemma remove_underscores_plain (prev : ascii) (s : string) :
  Forall (fun c => Ascii.eqb c "_" = false) (chars s) ->
  Ascii.eqb prev "_" = false ->
  remove_underscores prev s = Some s.
Proof.
  revert prev; induction s as [|c s IH]; intros prev Hs Hprev; simpl.
  - now rewrite Hprev.
  - simpl in Hs. apply Forall_cons in Hs as [Hc Hs].
    rewrite Hc, Hprev. simpl. now rewrite (IH c Hs Hc).
Qed.

Lemma lstrip_plain (sp : ascii -> bool) (s : string) :
  Forall (fun c => sp c = false) (chars s) -> lstrip sp s = s.
Proof.
  destruct s as [|c s]; [reflexivity|]. simpl. rewrite Forall_cons.
  intros [Hc _]. now rewrite Hc.
Qed.

Lemma rstrip_plain (sp : ascii -> bool) (s : string) :
  Forall (fun c => sp c = false) (chars s) -> rstrip sp s = s.
Proof.
  induction s as [|c s IH]; [reflexivity|]. simpl. rewrite Forall_cons.
  intros [Hc Hs]. rewrite (IH Hs). destruct s; [now rewrite Hc | reflexivity].
Qed.

Lemma read_digits_run (a rest : string) (acc : Z) (n : nat) :
  all_digits a = true ->
  match rest with
  | EmptyString => True
  | String c _ => is_digit c = false
  end ->
  exists v, read_digits (a +:+ rest) acc n = (v, (n + String.length a)%nat, rest).
Proof.
  revert acc n; induction a as [|c a IH]; intros acc n Ha Hrest.
  - rewrite append_nil_l. simpl. rewrite Nat.add_0_r.
    destruct rest as [|c r]; simpl; [eauto|]. rewrite Hrest. eauto.
  - rewrite all_digits_cons in Ha. apply andb_prop in Ha as [Hc Ha].
    rewrite append_cons. simpl. rewrite Hc.
    destruct (IH (10 * acc + digit_val c) (S n) Ha Hrest) as [v Hv].
    exists v. rewrite Hv. f_equal. f_equal. lia.
Qed.

(** A numeral with digits before and after a point reads as a float. *)
Lemma parse_decimal_point (neg : bool) (ip fp : string) :
  all_digits ip = true -> ip <> "" -> all_digits fp = true ->
  exists x, parse_decimal neg (ip +:+ "." +:+ fp) = Some x.
Proof.
  intros Hip Hne Hfp. unfold parse_decimal.
  destruct (read_digits_run ip ("." +:+ fp) 0 0%nat Hip eq_refl) as [v Hv].
  rewrite Hv. cbv beta iota.
  change ("." +:+ fp) with (String "." fp). cbv beta iota.
  rewrite Ascii.eqb_refl.
  destruct (read_digits_run fp "" v 0%nat Hfp I) as [m Hm].
  rewrite append_nil_r in Hm. rewrite Hm. cbv beta iota.
  destruct ip as [|c ip']; [contradiction|]. simpl String.length.
  change (read_exponent "") with (0, ""). cbv beta iota. eauto.
Qed.

Lemma float_of_str_render4 (neg : bool) (n : Z) :
  0 <= n -> exists x, float_of_str (render4 neg n) = Some x.
Proof.
  intros Hn. unfold render4.
  assert (Hq : 0 <= n / 10000) by (apply Z.div_pos; lia).
  destruct (pretty_Z_digits _ Hq) as [Hdig Hne].
  pose proof (all_digits_digits4 (n mod 10000)) as Hfp.
  set (ip := pretty (n / 10000)) in *. set (fp := digits4 (n mod 10000)) in *.
  destruct (parse_decimal_point neg ip fp Hdig Hne Hfp) as [x Hx].
  assert (Hbody : Forall (fun c => numeral_char c = true) (chars (ip +:+ "." +:+ fp))).
  { rewrite !chars_app. apply Forall_app. split; [now apply all_digits_numeral|].
    apply Forall_app. split; [repeat constructor | now apply all_digits_numeral]. }
  assert (Hall : Forall (fun c => numeral_char c = true)
                        (chars (sign_str neg +:+ ip +:+ "." +:+ fp))).
  { rewrite chars_app. apply Forall_app. split; [destruct neg; repeat constructor | exact Hbody]. }
  assert (Hsp : Forall (fun c => c_isspace c = false)
                       (chars (sign_str neg +:+ ip +:+ "." +:+ fp))).
  { eapply Forall_impl; [exact Hall|]. intros c Hc. now apply numeral_char_plain. }
  assert (Hus : Forall (fun c => Ascii.eqb c "_" = false)
                       (chars (sign_str neg +:+ ip +:+ "." +:+ fp))).
  { eapply Forall_impl; [exact Hall|]. intros c Hc. now apply numeral_char_plain. }
  exists x. unfold float_of_str.
  rewrite (remove_underscores_plain (chr 0) _ Hus eq_refl). cbn [mbind option_bind].
  rewrite (lstrip_plain _ _ Hsp), (rstrip_plain _ _ Hsp).
  assert (Hsign : read_sign (sign_str neg +:+ ip +:+ "." +:+ fp)
                  = (neg, ip +:+ "." +:+ fp)).
  { destruct neg; [reflexivity|]. rewrite append_nil_l.
    destruct ip as [|c ip']; [contradiction|].
    rewrite all_digits_cons in Hdig. apply andb_prop in Hdig as [Hc _].
    rewrite append_cons. simpl.
    now rewrite (is_digit_not_minus c Hc), (is_digit_not_plus c Hc). }
  rewrite Hsign. cbv beta iota. now rewrite Hx.
Qed.

(** What [format] writes reads as a float again and holds no [;]. *)
Lemma format_4f_reads (x : spec_float) :
  (exists y, float_of_str (format_4f x) = Some y)
  /\ Forall (fun c => Ascii.eqb c ";" = false) (chars (format_4f x))
  /\ format_4f x <> "".
Proof.
  destruct x as [[]|[]| |s m e]; try (split; [eexists; vm_compute; reflexivity|];
                                     split; [repeat constructor | discriminate]).
  change (format_4f (S754_finite s m e)) with (render4 s (round4 m e)).
  assert (Hn : 0 <= round4 m e).
  { pose proof (round4_nearest s m e) as H. unfold is_nearest4 in H.
    destruct (scaled_ratio m e). tauto. }
  split; [now apply float_of_str_render4|].
  assert (Hq : 0 <= round4 m e / 10000) by (apply Z.div_pos; lia).
  destruct (pretty_Z_digits _ Hq) as [Hdig Hne].
  split.
  - unfold render4. rewrite !chars_app.
    apply Forall_app; split; [destruct s; repeat constructor|].
    apply Forall_app; split.
    { eapply Forall_impl; [apply all_digits_numeral, Hdig|].
      intros c Hc. now apply numeral_char_plain. }
    apply Forall_app; split; [repeat constructor|].
    eapply Forall_impl; [apply all_digits_numeral, all_digits_digits4|].
    intros c Hc. now apply numeral_char_plain.
  - unfold render4. intros H. apply (f_equal chars) in H. rewrite !chars_app in H.
    destruct s; simpl in H; [discriminate|].
    destruct (pretty (round4 m e / 10000)); [contradiction | discriminate].
Qed.

(** X9: a truncated identifier is itself a well-formed identifier: it
    splits on [;] into exactly two fields, both not empty, and
    [get_truncated_feature_id] accepts it. *)
Theorem truncated_id_well_formed (s t : string) :
  get_truncated_feature_id s = OK t ->
  (exists fx fy, split ";" t = [fx; fy] /\ fx <> "" /\ fy <> ""
                 /\ t = fx +:+ ";" +:+ fy)
  /\ exists t', get_truncated_feature_id t = OK t'.
Proof.
  intros H. apply get_truncated_feature_id_inv in H as (a & b & x & y & _ & _ & _ & ->).
  destruct (format_4f_reads x) as ([x' Hx'] & Hxs & Hxne).
  destruct (format_4f_reads y) as ([y' Hy'] & Hys & Hyne).
  assert (Hsplit : split ";" (format_4f x +:+ ";" +:+ format_4f y)
                   = [format_4f x; format_4f y]).
  { change (";" +:+ format_4f y) with (String ";" (format_4f y)).
    now rewrite (split_at_sep ";" _ _ Hxs), (split_plain ";" _ Hys). }
  split.
  - exists (format_4f x), (format_4f y). repeat split; assumption.
  - exists (format_4f x' +:+ ";" +:+ format_4f y').
    now apply (get_truncated_feature_id_two _ (format_4f x) (format_4f y)).
Qed.

End truncated_id_facts.

Lemma truncated_id_well_formed_witness :
  exists t', get_truncated_feature_id "100.1235;200.9877" = OK t'.
Proof.
  apply (truncated_id_well_formed "100.12345;200.98765" "100.1235;200.9877").
  vm_compute. reflexivity.
Defined.

(** ** The mapping from truncated to full identifiers *)

Section mapping_facts.

(** The loop stops at the first identifier that has no truncated
    identifier, with the error of [get_truncated_feature_id]. *)
Lemma for_each_mapping_step_Raise (fids : list string)
    (st : gmap string string * list string) (e : exn) :
  for_each mapping_step fids st = Raise e
  <-> exists pre f post,
        fids = (pre ++ f :: post)%list
        /\ Forall (fun g => exists t, get_truncated_feature_id g = OK t) pre
        /\ get_truncated_feature_id f = Raise e.
Proof.
  revert st; induction fids as [|fid fids IH]; intros [d w].
  - simpl. split; [discriminate|]. intros (pre & f & post & H & _).
    destruct pre; discriminate.
  - rewrite for_each_cons.
    destruct (get_truncated_feature_id fid) as [t|e'] eqn:Ht.
    + rewrite (mapping_step_OK d w fid t Ht), bind_OK, IH. split.
      * intros (pre & f & post & -> & Hpre & Hf).
        exists (fid :: pre), f, post. split; [reflexivity|]. split; [|exact Hf].
        constructor; [eauto | exact Hpre].
      * intros (pre & f & post & Heq & Hpre & Hf). destruct pre as [|g pre].
        -- injection Heq as -> ->. congruence.
        -- injection Heq as -> ->. apply Forall_cons in Hpre as [_ Hpre].
           exists pre, f, post. auto.
    + rewrite (mapping_step_malformed _ _ _ Ht), bind_Raise. split.
      * intros [= ->]. exists [], fid, fids. split; [reflexivity|]. split; [constructor | exact Ht].
      * intros (pre & f & post & Heq & Hpre & Hf). destruct pre as [|g pre].
        -- injection Heq as -> ->. congruence.
        -- injection Heq as -> ->. apply Forall_cons in Hpre as [[t Hg] _]. congruence.
Qed.

Lemma get_truncated_feature_id_ValueError (fid : string) (e : exn) :
  get_truncated_feature_id fid = Raise e -> exists msg, e = ValueError msg.
Proof.
  unfold get_truncated_feature_id.
  destruct (map_float (split ";" fid)) as [xs|e'] eqn:E; simpl.
  - destruct xs as [|x [|y [|z xs]]]; intros [= <-]; eauto.
  - intros [= <-]. now destruct (map_float_Raise _ _ E) as [_ Hmsg].
Qed.

Lemma for_each_mapping_step_OK (fids : list string)
    (st st' : gmap string string * list string) :
  for_each mapping_step fids st = OK st' ->
  Forall (fun g => exists t, get_truncated_feature_id g = OK t) fids.
Proof.
  revert st; induction fids as [|fid fids IH]; intros [d w]; [constructor|].
  rewrite for_each_cons.
  destruct (get_truncated_feature_id fid) as [t|e] eqn:Ht.
  - rewrite (mapping_step_OK d w fid t Ht), bind_OK. intros H.
    constructor; [eauto | exact (IH _ H)].
  - rewrite (mapping_step_malformed _ _ _ Ht). discriminate.
Qed.

Lemma build_mapping_OK_iff (fids : list string) :
  (exists d w, build_mapping fids = OK (d, w))
  <-> Forall (fun g => exists t, get_truncated_feature_id g = OK t) fids.
Proof.
  split.
  - intros (d & w & Hb). exact (for_each_mapping_step_OK _ _ _ Hb).
  - intros Hwf. unfold build_mapping.
    destruct (for_each_well_formed fids (∅, [])) as [[d w] H]; [|eauto].
    intros f Hf. rewrite Forall_forall in Hwf. apply Hwf. exact Hf.
Qed.

Lemma reconcile_build_Raise (feature_ranks_index : list string) (metadata_df : list gnps_row)
    (e : exn) :
  build_mapping feature_ranks_index = Raise e ->
  reconcile feature_ranks_index metadata_df = Raise e.
Proof. intros H. unfold reconcile. now rewrite H. Qed.

(** X10: the mapping is built exactly when every reference identifier has
    a truncated identifier.  Otherwise the loop stops at the first reference
    identifier that has none, with the [ValueError] that
    [get_truncated_feature_id] raises for it, and [reconcile] fails with
    this error whatever the external table holds, even when it has no
    rows. *)
Theorem build_mapping_raises_iff (feature_ranks_index : list string) :
  ((exists d w, build_mapping feature_ranks_index = OK (d, w))
   <-> Forall (fun g => exists t, get_truncated_feature_id g = OK t) feature_ranks_index)
  /\ (forall e,
        build_mapping feature_ranks_index = Raise e
        <-> exists pre f post,
              feature_ranks_index = (pre ++ f :: post)%list
              /\ Forall (fun g => exists t, get_truncated_feature_id g = OK t) pre
              /\ get_truncated_feature_id f = Raise e)
  /\ (forall e,
        build_mapping feature_ranks_index = Raise e ->
        (exists msg, e = ValueError msg)
        /\ forall metadata_df, reconcile feature_ranks_index metadata_df = Raise e).
Proof.
  split; [apply build_mapping_OK_iff|]. split.
  - intros e. apply for_each_mapping_step_Raise.
  - intros e He. split.
    + apply for_each_mapping_step_Raise in He as (pre & f & post & _ & _ & Hf).
      exact (get_truncated_feature_id_ValueError _ _ Hf).
    + intros metadata_df. now apply reconcile_build_Raise.
Qed.

(** What the dict holds for a key, from the reference identifiers. *)
Lemma build_mapping_lookup (fids : list string) (d : gmap string string)
    (w : list string) (k : string) :
  build_mapping fids = OK (d, w) ->
  d !! k = match count_truncated k fids with
           | O => None
           | S O => first_truncated k fids
           | S (S _) => Some qurro_matching_conflict
           end.
Proof.
  intros Hb. rewrite (for_each_lookup _ _ _ _ _ k Hb), lookup_empty.
  now destruct (count_truncated k fids) as [|[|n]].
Qed.

Lemma first_truncated_Some (k f : string) (fids : list string) :
  first_truncated k fids = Some f -> f ∈ fids /\ get_truncated_feature_id f = OK k.
Proof.
  unfold first_truncated. intros H.
  assert (Hin : f ∈ filter (fun fid => truncates_to k fid = true) fids).
  { destruct (filter (fun fid => truncates_to k fid = true) fids) as [|x l];
      [discriminate|]. injection H as ->. left. }
  apply list_elem_of_filter in Hin as [Ht Hin]. split; [exact Hin|].
  now apply truncates_to_true.
Qed.

Lemma first_truncated_is_Some (k : string) (fids : list string) (n : nat) :
  count_truncated k fids = S n -> exists f, first_truncated k fids = Some f.
Proof.
  unfold count_truncated, first_truncated.
  destruct (filter (fun fid => truncates_to k fid = true) fids) as [|x l];
    [discriminate | eauto].
Qed.

Lemma build_mapping_None (fids : list string) (d : gmap string string)
    (w : list string) (k : string) :
  build_mapping fids = OK (d, w) -> (d !! k = None <-> count_truncated k fids = 0%nat).
Proof.
  intros Hb. rewrite (build_mapping_lookup _ _ _ k Hb).
  destruct (count_truncated k fids) as [|[|n]] eqn:Hc; [tauto | | split; discriminate].
  destruct (first_truncated_is_Some _ _ _ Hc) as [f ->]. split; discriminate.
Qed.

Lemma build_mapping_sentinel (fids : list string) (d : gmap string string)
    (w : list string) (k : string) :
  build_mapping fids = OK (d, w) ->
  (d !! k = Some qurro_matching_conflict <-> (2 <= count_truncated k fids)%nat).
Proof.
  intros Hb. rewrite (build_mapping_lookup _ _ _ k Hb).
  destruct (count_truncated k fids) as [|[|n]] eqn:Hc.
  - split; [discriminate | lia].
  - split; [|lia]. intros Hf. apply first_truncated_Some in Hf as [_ Hf].
    now apply conflict_is_no_feature_id in Hf.
  - split; [lia | reflexivity].
Qed.

Lemma build_mapping_full_id (fids : list string) (d : gmap string string)
    (w : list string) (k f : string) :
  build_mapping fids = OK (d, w) -> f <> qurro_matching_conflict ->
  (d !! k = Some f
   <-> count_truncated k fids = 1%nat /\ f ∈ fids /\ get_truncated_feature_id f = OK k).
Proof.
  intros Hb Hne. split.
  - rewrite (build_mapping_lookup _ _ _ k Hb).
    destruct (count_truncated k fids) as [|[|n]] eqn:Hc; [discriminate | | congruence].
    intros Hf. apply first_truncated_Some in Hf. tauto.
  - intros (Hc & Hin & Hf). exact (build_mapping_unique _ _ _ _ _ Hb Hc Hin Hf).
Qed.

(** Every pass through the loop adds a key or logs a warning. *)
Lemma for_each_mapping_step_size (fids : list string) (d d' : gmap string string)
    (w w' : list string) :
  for_each mapping_step fids (d, w) = OK (d', w') ->
  (length w' + size d' = length w + size d + length fids)%nat.
Proof.
  revert d w; induction fids as [|fid fids IH]; intros d w.
  - simpl. intros [= <- <-]. lia.
  - rewrite for_each_cons.
    destruct (get_truncated_feature_id fid) as [t|e] eqn:Ht;
      [|rewrite (mapping_step_malformed _ _ _ Ht); discriminate].
    rewrite (mapping_step_OK d w fid t Ht), bind_OK.
    destruct (d !! t) as [v|] eqn:Hd; intros Hrest; rewrite (IH _ _ Hrest); simpl.
    + rewrite map_size_insert_Some by eauto. rewrite length_app. simpl. lia.
    + rewrite map_size_insert_None by exact Hd. lia.
Qed.

Lemma key_state_of_Conflicted (d : gmap string string) (k : string) :
  key_state_of d k = Conflicted <-> d !! k = Some qurro_matching_conflict.
Proof.
  unfold key_state_of. destruct (d !! k) as [v|]; [|split; discriminate].
  destruct (String.eqb_spec v qurro_matching_conflict) as [->|Hne]; split; congruence.
Qed.

(** The warnings logged name keys that end as conflicts. *)
Lemma for_each_mapping_step_warnings (fids : list string) (d d' : gmap string string)
    (w w' : list string) :
  for_each mapping_step fids (d, w) = OK (d', w') ->
  exists extra,
    w' = (w ++ extra)%list
    /\ Forall (fun m => exists k, m = collision_warning k
                                  /\ d' !! k = Some qurro_matching_conflict) extra.
Proof.
  revert d w; induction fids as [|fid fids IH]; intros d w.
  - simpl. intros [= <- <-]. exists []. split; [now rewrite app_nil_r | constructor].
  - rewrite for_each_cons.
    destruct (get_truncated_feature_id fid) as [t|e] eqn:Ht;
      [|rewrite (mapping_step_malformed _ _ _ Ht); discriminate].
    rewrite (mapping_step_OK d w fid t Ht), bind_OK.
    destruct (d !! t) as [v|] eqn:Hd; intros Hrest.
    + destruct (IH _ _ Hrest) as (extra & -> & Hextra).
      exists (collision_warning t :: extra). split; [now rewrite <- app_assoc|].
      constructor; [|exact Hextra]. exists t. split; [reflexivity|].
      apply key_state_of_Conflicted.
      apply (for_each_conflicted_stays _ _ _ t Hrest). simpl.
      apply key_state_of_insert_conflict.
    + exact (IH _ _ Hrest).
Qed.

(** X11: the dict that the loop over the reference identifiers builds.  A
    key is absent iff no reference identifier has it as truncated
    identifier; it holds the sentinel iff two or more have (a reference
    identifier that is listed twice conflicts with itself); it holds a
    full identifier [f] iff [f] is the only reference identifier with this
    truncated identifier.  Every reference identifier either added a key
    or logged a warning, and each warning names a key that holds the
    sentinel. *)
Theorem build_mapping_entries (feature_ranks_index : list string)
    (d : gmap string string) (warnings : list string) :
  build_mapping feature_ranks_index = OK (d, warnings) ->
  (forall k, d !! k = None <-> count_truncated k feature_ranks_index = 0%nat)
  /\ (forall k, d !! k = Some qurro_matching_conflict
                <-> (2 <= count_truncated k feature_ranks_index)%nat)
  /\ (forall k f, f <> qurro_matching_conflict ->
                  (d !! k = Some f
                   <-> count_truncated k feature_ranks_index = 1%nat
                       /\ f ∈ feature_ranks_index /\ get_truncated_feature_id f = OK k))
  /\ (length warnings + size d = length feature_ranks_index)%nat
  /\ Forall (fun m => exists k, m = collision_warning k
                                /\ d !! k = Some qurro_matching_conflict) warnings.
Proof.
  intros Hb. split; [|split; [|split; [|split]]].
  - intros k. exact (build_mapping_None _ _ _ k Hb).
  - intros k. exact (build_mapping_sentinel _ _ _ k Hb).
  - intros k f Hne. exact (build_mapping_full_id _ _ _ k f Hb Hne).
  - pose proof (for_each_mapping_step_size _ _ _ _ _ Hb) as H.
    rewrite map_size_empty in H. simpl in H. lia.
  - destruct (for_each_mapping_step_warnings _ _ _ _ _ Hb) as (extra & -> & H). exact H.
Qed.

Lemma count_truncated_Permutation (k : string) (fids fids' : list string) :
  fids ≡ₚ fids' -> count_truncated k fids = count_truncated k fids'.
Proof.
  intros Hp. unfold count_truncated. apply Permutation_length.
  now apply filter_Permutation.
Qed.

Lemma first_truncated_Permutation (k : string) (fids fids' : list string) :
  fids ≡ₚ fids' -> count_truncated k fids = 1%nat ->
  first_truncated k fids = first_truncated k fids'.
Proof.
  intros Hp Hc. unfold first_truncated, count_truncated in *.
  pose proof (filter_Permutation (fun fid => truncates_to k fid = true) _ _ Hp) as Hf.
  destruct (filter (fun fid => truncates_to k fid = true) fids) as [|x [|y l]];
    try discriminate.
  symmetry in Hf. apply Permutation_singleton_r in Hf. now rewrite Hf.
Qed.

(** X12: the dict does not depend on the order of the reference
    identifiers: for a reordering of them the loop builds the same dict
    and logs as many warnings. *)
Theorem build_mapping_order (feature_ranks_index reordered : list string)
    (d : gmap string string) (warnings : list string) :
  feature_ranks_index ≡ₚ reordered ->
  build_mapping feature_ranks_index = OK (d, warnings) ->
  exists warnings',
    build_mapping reordered = OK (d, warnings')
    /\ length warnings' = length warnings.
Proof.
  intros Hp Hb.
  assert (Hwf : Forall (fun g => exists t, get_truncated_feature_id g = OK t) reordered).
  { rewrite <- Hp. exact (for_each_mapping_step_OK _ _ _ Hb). }
  apply build_mapping_OK_iff in Hwf as (d' & w' & Hb').
  assert (d' = d) as ->.
  { apply map_eq. intros k.
    rewrite (build_mapping_lookup _ _ _ k Hb), (build_mapping_lookup _ _ _ k Hb').
    rewrite <- (count_truncated_Permutation k _ _ Hp).
    destruct (count_truncated k feature_ranks_index) as [|[|n]] eqn:Hc; try reflexivity.
    symmetry. now apply first_truncated_Permutation. }
  exists w'. split; [exact Hb'|].
  pose proof (for_each_mapping_step_size _ _ _ _ _ Hb) as H.
  pose proof (for_each_mapping_step_size _ _ _ _ _ Hb') as H'.
  apply Permutation_length in Hp. simpl in H, H'. lia.
Qed.

End mapping_facts.

Lemma build_mapping_raises_iff_witness :
  build_mapping ["1.5;2.5"; "1.5"; "x;y"]
  = Raise (ValueError "not enough values to unpack (expected 2, got 1)")
  /\ reconcile ["1.5;2.5"; "1.5"; "x;y"] []
     = Raise (ValueError "not enough values to unpack (expected 2, got 1)").
Proof.
  destruct (build_mapping_raises_iff ["1.5;2.5"; "1.5"; "x;y"]) as (_ & Hiff & Hrec).
  assert (H : build_mapping ["1.5;2.5"; "1.5"; "x;y"]
              = Raise (ValueError "not enough values to unpack (expected 2, got 1)")).
  { apply Hiff. exists ["1.5;2.5"], "1.5", ["x;y"]. split; [reflexivity|]. split.
    - constructor; [|constructor]. eexists. vm_compute. reflexivity.
    - vm_compute. reflexivity. }
  split; [exact H|]. now apply (Hrec _ H).
Defined.

Lemma build_mapping_entries_witness :
  (length [collision_warning "1.0000;2.0000"]
   + size ({[ "1.0000;2.0000" := qurro_matching_conflict;
              "5.5000;6.6000" := "5.5;6.6" ]} : gmap string string)
   = length example_ranks_index)%nat.
Proof.
  destruct (build_mapping_entries example_ranks_index
              {[ "1.0000;2.0000" := qurro_matching_conflict; "5.5000;6.6000" := "5.5;6.6" ]}
              [collision_warning "1.0000;2.0000"]) as (_ & _ & _ & H & _).
  - vm_compute. reflexivity.
  - exact H.
Defined.

Lemma build_mapping_order_witness :
  exists warnings',
    build_mapping ["5.5;6.6"; "1.00002;2.00002"; "1.00001;2.00001"]
    = OK ({[ "1.0000;2.0000" := qurro_matching_conflict; "5.5000;6.6000" := "5.5;6.6" ]},
          warnings')
    /\ length warnings' = 1%nat.
Proof.
  apply (build_mapping_order example_ranks_index
           ["5.5;6.6"; "1.00002;2.00002"; "1.00001;2.00001"]
           {[ "1.0000;2.0000" := qurro_matching_conflict; "5.5000;6.6000" := "5.5;6.6" ]}
           [collision_warning "1.0000;2.0000"]).
  - unfold example_ranks_index.
    etransitivity; [apply perm_swap|].
    etransitivity; [apply perm_skip, perm_swap|].
    apply perm_swap.
  - vm_compute. reflexivity.
Defined.

(** ** The rows that [read_gnps_feature_metadata_file] keeps *)

Section reconcile_facts.

(** The lookup raises at the first row whose truncated identifier is not
    a key. *)
Lemma apply_lookup_rows_Raise (d : gmap string string) (metadata_df : list gnps_row) (e : exn) :
  apply_lookup d (map qurro_trunc_feature_id metadata_df) = Raise e
  <-> exists pre row post,
        metadata_df = (pre ++ row :: post)%list
        /\ Forall (fun r => is_Some (d !! qurro_trunc_feature_id r)) pre
        /\ d !! qurro_trunc_feature_id row = None
        /\ e = KeyError (qurro_trunc_feature_id row).
Proof.
  induction metadata_df as [|r rows IH]; simpl.
  - split; [discriminate|]. intros (pre & row & post & H & _). destruct pre; discriminate.
  - destruct (d !! qurro_trunc_feature_id r) as [f|] eqn:E.
    + destruct (apply_lookup d (map qurro_trunc_feature_id rows)) as [fs|e'] eqn:E'.
      * rewrite bind_OK. split; [discriminate|].
        intros (pre & row & post & Heq & Hpre & Hrow & He). destruct pre as [|p pre].
        -- injection Heq as -> ->. congruence.
        -- injection Heq as -> ->. apply Forall_cons in Hpre as [_ Hpre].
           assert (Hr : OK fs = Raise e); [|discriminate Hr].
           apply IH. exists pre, row, post. auto.
      * rewrite bind_Raise. split.
        -- intros [= ->]. destruct (proj1 IH eq_refl) as (pre & row & post & -> & Hpre & Hrow & He).
           exists (r :: pre), row, post. split; [reflexivity|].
           split; [constructor; [eauto | exact Hpre] | auto].
        -- intros (pre & row & post & Heq & Hpre & Hrow & He). destruct pre as [|p pre].
           ++ injection Heq as -> ->. congruence.
           ++ injection Heq as -> ->. apply Forall_cons in Hpre as [_ Hpre].
              apply IH. exists pre, row, post. auto.
    + split.
      * intros [= <-]. exists [], r, rows. split; [reflexivity|]. split; [constructor | auto].
      * intros (pre & row & post & Heq & Hpre & Hrow & He). destruct pre as [|p pre].
        -- injection Heq as -> ->. now rewrite He.
        -- injection Heq as -> ->. apply Forall_cons in Hpre as [[f Hf] _]. congruence.
Qed.

Lemma apply_lookup_rows_OK (d : gmap string string) (metadata_df : list gnps_row)
    (full_ids : list string) :
  apply_lookup d (map qurro_trunc_feature_id metadata_df) = OK full_ids
  <-> Forall (fun r => is_Some (d !! qurro_trunc_feature_id r)) metadata_df
      /\ full_ids = map (qurro_full_feature_id d) metadata_df.
Proof.
  revert full_ids; induction metadata_df as [|r rows IH]; intros full_ids; simpl.
  - split; [intros [= <-]; split; [constructor | reflexivity] | intros [_ ->]; reflexivity].
  - unfold qurro_full_feature_id at 1.
    destruct (d !! qurro_trunc_feature_id r) as [f|] eqn:E.
    + destruct (apply_lookup d (map qurro_trunc_feature_id rows)) as [fs|e'] eqn:E'.
      * rewrite bind_OK. destruct (proj1 (IH fs) eq_refl) as [Hall ->]. split.
        -- intros [= <-]. split; [constructor; [eauto | exact Hall] | reflexivity].
        -- intros [_ ->]. reflexivity.
      * rewrite bind_Raise. split; [discriminate|]. intros [Hall _].
        apply Forall_cons in Hall as [_ Hall].
        assert (Hr : Raise e' = OK (map (qurro_full_feature_id d) rows)); [|discriminate Hr].
        apply IH. auto.
    + split; [discriminate|]. intros [Hall _]. apply Forall_cons in Hall as [[f Hf] _].
      congruence.
Qed.

Lemma kept_rows (d : gmap string string) (metadata_df : list gnps_row) :
  filter (fun r : gnps_row * string => snd r <> qurro_matching_conflict)
         (zip metadata_df (map (qurro_full_feature_id d) metadata_df))
  = map (fun r => (r, qurro_full_feature_id d r))
        (filter (fun r => qurro_full_feature_id d r <> qurro_matching_conflict) metadata_df).
Proof.
  induction metadata_df as [|r rows IH]; [reflexivity|]. simpl.
  destruct (decide (qurro_full_feature_id d r <> qurro_matching_conflict)) as [Hk|Hk].
  - rewrite !filter_cons_True by exact Hk. simpl. now rewrite IH.
  - rewrite !filter_cons_False by exact Hk. exact IH.
Qed.

(** [reconcile] when the dict is built and has a key for every row. *)
Lemma reconcile_matched (feature_ranks_index : list string) (metadata_df : list gnps_row)
    (d : gmap string string) (warnings : list string) :
  build_mapping feature_ranks_index = OK (d, warnings) ->
  Forall (fun r => is_Some (d !! qurro_trunc_feature_id r)) metadata_df ->
  reconcile feature_ranks_index metadata_df
  = let kept := filter (fun r => qurro_full_feature_id d r <> qurro_matching_conflict)
                       metadata_df in
    if bool_decide (NoDup (map (qurro_full_feature_id d) kept)) then
      OK (mkDataFrame (map (qurro_full_feature_id d) kept) ["LibraryID"]
                      [map (fun r => Str (LibraryID r)) kept], warnings)
    else Raise (ValueError "Index has duplicate keys").
Proof.
  intros Hb Hall.
  assert (Hl : apply_lookup d (map qurro_trunc_feature_id metadata_df)
               = OK (map (qurro_full_feature_id d) metadata_df))
    by (apply apply_lookup_rows_OK; auto).
  rewrite (reconcile_resolved _ _ _ _ _ Hb Hl). cbv zeta.
  rewrite kept_rows, !map_map. simpl.
  rewrite (map_ext (fun x => qurro_full_feature_id d x) (qurro_full_feature_id d)) by reflexivity.
  reflexivity.
Qed.

Lemma reconcile_OK_inv (feature_ranks_index : list string) (metadata_df : list gnps_row)
    (df : DataFrame string) (warnings : list string) :
  reconcile feature_ranks_index metadata_df = OK (df, warnings) ->
  exists d, build_mapping feature_ranks_index = OK (d, warnings)
            /\ Forall (fun r => is_Some (d !! qurro_trunc_feature_id r)) metadata_df.
Proof.
  unfold reconcile.
  destruct (build_mapping feature_ranks_index) as [[d w]|e] eqn:Hb; [|discriminate].
  rewrite bind_OK. cbv beta iota.
  destruct (apply_lookup d (map qurro_trunc_feature_id metadata_df)) as [full|e] eqn:Hl;
    [|discriminate].
  rewrite bind_OK. apply apply_lookup_rows_OK in Hl as [Hall _].
  destruct (bool_decide _); [|discriminate]. intros [= _ <-]. eauto.
Qed.

Lemma matched_iff (feature_ranks_index : list string) (d : gmap string string)
    (warnings : list string) (k : string) :
  build_mapping feature_ranks_index = OK (d, warnings) ->
  (is_Some (d !! k) <-> count_truncated k feature_ranks_index <> 0%nat).
Proof.
  intros Hb. rewrite <- (build_mapping_None _ _ _ k Hb), <- not_eq_None_Some. reflexivity.
Qed.

Lemma Forall_matched (feature_ranks_index : list string) (d : gmap string string)
    (warnings : list string) (rows : list gnps_row) :
  build_mapping feature_ranks_index = OK (d, warnings) ->
  (Forall (fun r => is_Some (d !! qurro_trunc_feature_id r)) rows
   <-> Forall (fun r => count_truncated (qurro_trunc_feature_id r) feature_ranks_index <> 0%nat)
              rows).
Proof.
  intros Hb. apply Forall_iff. intros r. exact (matched_iff _ _ _ _ Hb).
Qed.

(** X13: an external row whose truncated identifier is the truncated
    identifier of no reference identifier makes the call fail: when the
    reference identifiers are well formed, [reconcile] raises
    [KeyError(t)] exactly when [t] is the truncated identifier of the
    first such row.  No row is skipped for having no match. *)
Theorem reconcile_unmatched_row (feature_ranks_index : list string)
    (metadata_df : list gnps_row) (t : string) :
  Forall (fun g => exists k, get_truncated_feature_id g = OK k) feature_ranks_index ->
  (reconcile feature_ranks_index metadata_df = Raise (KeyError t)
   <-> exists pre row post,
         metadata_df = (pre ++ row :: post)%list
         /\ Forall (fun r => count_truncated (qurro_trunc_feature_id r) feature_ranks_index
                             <> 0%nat) pre
         /\ count_truncated (qurro_trunc_feature_id row) feature_ranks_index = 0%nat
         /\ t = qurro_trunc_feature_id row).
Proof.
  intros Hwf. apply build_mapping_OK_iff in Hwf as (d & w & Hb).
  assert (Hiff : reconcile feature_ranks_index metadata_df = Raise (KeyError t)
                 <-> apply_lookup d (map qurro_trunc_feature_id metadata_df)
                     = Raise (KeyError t)).
  { unfold reconcile. rewrite Hb, bind_OK. cbv beta iota.
    destruct (apply_lookup d (map qurro_trunc_feature_id metadata_df)) as [full|e];
      [|rewrite bind_Raise; split; congruence].
    rewrite bind_OK. destruct (bool_decide _); split; discriminate. }
  rewrite Hiff, apply_lookup_rows_Raise. split.
  - intros (pre & row & post & -> & Hpre & Hrow & [= ->]).
    exists pre, row, post. split; [reflexivity|].
    split; [now apply (Forall_matched _ _ _ _ Hb)|].
    split; [now apply (build_mapping_None _ _ _ _ Hb) | reflexivity].
  - intros (pre & row & post & -> & Hpre & Hrow & ->).
    exists pre, row, post. split; [reflexivity|].
    split; [now apply (Forall_matched _ _ _ _ Hb)|].
    split; [now apply (build_mapping_None _ _ _ _ Hb) | reflexivity].
Qed.

Lemma full_feature_id_kept (feature_ranks_index : list string) (d : gmap string string)
    (warnings : list string) (row : gnps_row) :
  build_mapping feature_ranks_index = OK (d, warnings) ->
  is_Some (d !! qurro_trunc_feature_id row) ->
  qurro_full_feature_id d row <> qurro_matching_conflict ->
  qurro_full_feature_id d row ∈ feature_ranks_index
  /\ get_truncated_feature_id (qurro_full_feature_id d row) = OK (qurro_trunc_feature_id row)
  /\ count_truncated (qurro_trunc_feature_id row) feature_ranks_index = 1%nat.
Proof.
  intros Hb [f Hf] Hne. unfold qurro_full_feature_id in *. rewrite Hf in *. simpl in *.
  apply (build_mapping_full_id _ _ _ _ _ Hb Hne) in Hf. tauto.
Qed.

(** X14: what [reconcile] returns when it returns.  The table has the one
    column [LibraryID]; its rows are rows of the external table, in their
    order, each under a reference identifier that has the row's truncated
    identifier and is the only reference identifier that has it; no label
    is the sentinel and no label occurs twice.  Every external row had a
    reference identifier with its truncated identifier. *)
Theorem reconcile_result (feature_ranks_index : list string) (metadata_df : list gnps_row)
    (df : DataFrame string) (warnings : list string) :
  reconcile feature_ranks_index metadata_df = OK (df, warnings) ->
  (exists kept,
      kept `sublist_of` metadata_df
      /\ Forall2 (fun row f =>
                    f ∈ feature_ranks_index
                    /\ get_truncated_feature_id f = OK (qurro_trunc_feature_id row)
                    /\ count_truncated (qurro_trunc_feature_id row) feature_ranks_index = 1%nat)
                 kept (index df)
      /\ values df = [map (fun row => Str (LibraryID row)) kept])
  /\ columns df = ["LibraryID"]
  /\ NoDup (index df)
  /\ (qurro_matching_conflict ∉ index df)
  /\ Forall (fun r => count_truncated (qurro_trunc_feature_id r) feature_ranks_index <> 0%nat)
            metadata_df.
Proof.
  intros Hrec. destruct (reconcile_OK_inv _ _ _ _ Hrec) as (d & Hb & Hall).
  rewrite (reconcile_matched _ _ _ _ Hb Hall) in Hrec. cbv zeta in Hrec.
  set (kept := filter (fun r => qurro_full_feature_id d r <> qurro_matching_conflict)
                      metadata_df) in *.
  destruct (bool_decide (NoDup (map (qurro_full_feature_id d) kept))) eqn:Hnd;
    [|discriminate].
  apply bool_decide_eq_true_1 in Hnd. injection Hrec as <-. simpl.
  assert (Hkept : forall r, r ∈ kept ->
            is_Some (d !! qurro_trunc_feature_id r)
            /\ qurro_full_feature_id d r <> qurro_matching_conflict).
  { intros r Hr. apply list_elem_of_filter in Hr as [Hne Hr]. split; [|exact Hne].
    rewrite Forall_forall in Hall. now apply Hall. }
  split; [|split; [reflexivity | split; [exact Hnd | split]]].
  - exists kept. split; [apply sublist_filter|]. split; [|reflexivity].
    clear Hnd. induction kept as [|r kept IH]; [constructor|]. simpl. constructor.
    + destruct (Hkept r) as [Hs Hne]; [left|].
      exact (full_feature_id_kept _ _ _ _ Hb Hs Hne).
    + apply IH. intros r' Hr'. apply Hkept. now right.
  - intros Hin. apply list_elem_of_In, in_map_iff in Hin as (r & Hr & Hin).
    apply list_elem_of_In in Hin. now destruct (Hkept r Hin) as [_ Hne].
  - now apply (Forall_matched _ _ _ _ Hb).
Qed.

Lemma NoDup_repeated {A : Type} (x : A) (a b c : list A) :
  ~ NoDup (a ++ x :: b ++ x :: c)%list.
Proof.
  intros H. apply NoDup_app in H as (_ & _ & H). apply NoDup_cons in H as [H _].
  apply H. apply elem_of_app. right. left.
Qed.

(** X15: two external rows with the same truncated identifier cannot both
    be annotated.  If the reference identifiers are well formed, every
    external row has a reference identifier with its truncated identifier,
    and two rows have the truncated identifier of exactly one reference
    identifier, then both rows get this full identifier and
    [set_index(verify_integrity=True)] raises. *)
Theorem reconcile_repeated_row (feature_ranks_index : list string)
    (metadata_df a b c : list gnps_row) (r1 r2 : gnps_row) :
  Forall (fun g => exists k, get_truncated_feature_id g = OK k) feature_ranks_index ->
  Forall (fun r => count_truncated (qurro_trunc_feature_id r) feature_ranks_index <> 0%nat)
         metadata_df ->
  metadata_df = (a ++ r1 :: b ++ r2 :: c)%list ->
  qurro_trunc_feature_id r1 = qurro_trunc_feature_id r2 ->
  count_truncated (qurro_trunc_feature_id r1) feature_ranks_index = 1%nat ->
  reconcile feature_ranks_index metadata_df = Raise (ValueError "Index has duplicate keys").
Proof.
  intros Hwf Hall -> Heq Hc. apply build_mapping_OK_iff in Hwf as (d & w & Hb).
  apply (Forall_matched _ _ _ _ Hb) in Hall.
  rewrite (reconcile_matched _ _ _ _ Hb Hall). cbv zeta.
  destruct (first_truncated_is_Some _ _ _ Hc) as [f Hf].
  assert (Hd : d !! qurro_trunc_feature_id r1 = Some f)
    by (rewrite (build_mapping_lookup _ _ _ _ Hb), Hc; exact Hf).
  assert (Hne : f <> qurro_matching_conflict).
  { apply first_truncated_Some in Hf as [_ Hf]. exact (conflict_is_no_feature_id _ _ Hf). }
  assert (H1 : qurro_full_feature_id d r1 = f)
    by (unfold qurro_full_feature_id; now rewrite Hd).
  assert (H2 : qurro_full_feature_id d r2 = f)
    by (unfold qurro_full_feature_id; now rewrite <- Heq, Hd).
  rewrite filter_app, filter_cons_True by congruence.
  rewrite filter_app, filter_cons_True by congruence.
  rewrite map_app, map_cons, map_app, map_cons, H1, H2.
  rewrite bool_decide_eq_false_2 by apply NoDup_repeated. reflexivity.
Qed.

End reconcile_facts.

Lemma reconcile_unmatched_row_witness :
  reconcile example_ranks_index
            (example_metadata_df ++ [mkGnpsRow (float_lit "7.25") (float_lit "8.5") "lib D"])
  = Raise (KeyError "7.2500;8.5000").
Proof.
  apply (reconcile_unmatched_row example_ranks_index).
  - repeat constructor; eexists; vm_compute; reflexivity.
  - exists example_metadata_df, (mkGnpsRow (float_lit "7.25") (float_lit "8.5") "lib D"), [].
    split; [reflexivity|]. split; [|split; vm_compute; reflexivity].
    repeat constructor; vm_compute; discriminate.
Defined.

Lemma reconcile_result_witness :
  NoDup (index (mkDataFrame ["5.5;6.6"] ["LibraryID"] [[Str "lib C"]]))
  /\ (qurro_matching_conflict ∉ index (mkDataFrame ["5.5;6.6"] ["LibraryID"] [[Str "lib C"]])).
Proof.
  destruct (reconcile_result example_ranks_index example_metadata_df
              (mkDataFrame ["5.5;6.6"] ["LibraryID"] [[Str "lib C"]])
              [collision_warning "1.0000;2.0000"]) as (_ & _ & Hnd & Hs & _).
  - vm_compute. reflexivity.
  - split; assumption.
Defined.

Lemma reconcile_repeated_row_witness :
  reconcile example_ranks_index
            [mkGnpsRow (float_lit "5.5") (float_lit "6.6") "lib C";
             mkGnpsRow (float_lit "5.50001") (float_lit "6.60001") "lib E"]
  = Raise (ValueError "Index has duplicate keys").
Proof.
  apply (reconcile_repeated_row example_ranks_index _ [] [] []
           (mkGnpsRow (float_lit "5.5") (float_lit "6.6") "lib C")
           (mkGnpsRow (float_lit "5.50001") (float_lit "6.60001") "lib E")).
  - repeat constructor; eexists; vm_compute; reflexivity.
  - repeat constructor; vm_compute; discriminate.
  - reflexivity.
  - vm_compute. reflexivity.
  - vm_compute. reflexivity.
Defined.

(** ** The table that [read_metadata_file] returns *)

Section loader_facts.
Variable pd_read_csv : filesystem -> md_file_loc -> list nat -> result (DataFrame nat).

Lemma read_metadata_file_OK_inv (fs : filesystem) (src : md_file_loc) (df : DataFrame cell) :
  read_metadata_file pd_read_csv fs src = OK df ->
  exists q2_lines src' metadata_df,
    get_q2_comment_lines fs src = OK (q2_lines, src')
    /\ pd_read_csv fs src' q2_lines = OK metadata_df
    /\ normalize_metadata metadata_df = OK df.
Proof.
  unfold read_metadata_file.
  destruct (get_q2_comment_lines fs src) as [[q src']|e] eqn:Hq; [|discriminate].
  rewrite bind_OK. cbv beta iota.
  destruct (pd_read_csv fs src' q) as [mdf|e] eqn:Hr; [|discriminate].
  rewrite bind_OK. intros Hn. exists q, src', mdf. auto.
Qed.

Lemma normalize_metadata_OK_inv (metadata_df : DataFrame nat) (df : DataFrame cell) :
  normalize_metadata metadata_df = OK df ->
  exists id_label other_labels ids others,
    columns metadata_df = id_label :: other_labels
    /\ values metadata_df = ids :: others
    /\ existsb blank ids = false
    /\ df = mkDataFrame (map normalize_cell ids) other_labels
                        (map (map normalize_cell) others).
Proof.
  destruct metadata_df as [idx cols vals].
  destruct cols as [|c0 cols]; [discriminate|].
  destruct vals as [|ids others]; [discriminate|].
  rewrite (normalize_metadata_spec (mkDataFrame idx (c0 :: cols) (ids :: others))
             c0 cols ids others eq_refl eq_refl).
  destruct (existsb blank ids) eqn:E; [discriminate|]. intros [= <-].
  exists c0, cols, ids, others. auto.
Qed.

Lemma normalize_cell_cases (c : cell) :
  normalize_cell c = NaN
  \/ exists t, normalize_cell c = Str t /\ t <> "" /\ no_outer_space isspace t.
Proof.
  pose proof (normalize_cell_shape c) as H.
  destruct (normalize_cell c) as [|t]; [now left|]. right. exists t.
  destruct H as (H1 & H2 & _). auto.
Qed.

(** X16: the table that [read_metadata_file] returns.  Every row label is
    a string that is not empty and neither starts nor ends with
    whitespace (none is missing); every other cell is missing or such a
    string; the labels are the first column of the table read, so there
    are as many rows, and the column labels are those of the table read
    without the first. *)
Theorem read_metadata_file_result (fs : filesystem) (src : md_file_loc) (df : DataFrame cell) :
  read_metadata_file pd_read_csv fs src = OK df ->
  Forall (fun c => exists t, c = Str t /\ t <> "" /\ no_outer_space isspace t) (index df)
  /\ Forall (Forall (fun c => c = NaN
                              \/ exists t, c = Str t /\ t <> "" /\ no_outer_space isspace t))
            (values df)
  /\ exists q2_lines src' metadata_df id_label ids others,
       get_q2_comment_lines fs src = OK (q2_lines, src')
       /\ pd_read_csv fs src' q2_lines = OK metadata_df
       /\ columns metadata_df = id_label :: columns df
       /\ values metadata_df = ids :: others
       /\ length (index df) = length ids
       /\ length (values df) = length others.
Proof.
  intros Hread.
  destruct (read_metadata_file_OK_inv _ _ _ Hread) as (q & src' & mdf & Hq & Hr & Hn).
  destruct (normalize_metadata_OK_inv _ _ Hn) as (c0 & cols & ids & others & Hc & Hv & Hb & ->).
  simpl. split; [|split].
  - apply Forall_forall. intros c Hin.
    apply list_elem_of_In, in_map_iff in Hin as (c' & <- & Hin).
    destruct (normalize_cell_cases c') as [Hnan|Ht]; [|exact Ht]. exfalso.
    assert (Hex : existsb blank ids = true); [|congruence].
    apply existsb_exists. exists c'. split; [exact Hin|].
    now rewrite <- isna_normalize_cell, Hnan.
  - apply Forall_forall. intros col Hcol.
    apply list_elem_of_In, in_map_iff in Hcol as (col' & <- & _).
    apply Forall_forall. intros c Hin.
    apply list_elem_of_In, in_map_iff in Hin as (c' & <- & _).
    apply normalize_cell_cases.
  - exists q, src', mdf, c0, ids, others. rewrite !length_map. auto 10.
Qed.

(** X17: [read_metadata_file] does not check that the identifiers differ.
    When two cells of the first column have the same text once stripped
    (and no identifier is blank), the table is returned with this label on
    two rows, and [ensure_df_headers_unique] and [validate_df] then raise
    for it. *)
Theorem read_metadata_file_repeated_id
    (fs : filesystem) (src src' : md_file_loc) (q2_lines : list nat)
    (metadata_df : DataFrame nat) (id_label : string) (other_labels : list string)
    (ids a b c : list cell) (s1 s2 : string) (others : list (list cell))
    (name : string) (min_row_ct min_col_ct : Z) :
  get_q2_comment_lines fs src = OK (q2_lines, src') ->
  pd_read_csv fs src' q2_lines = OK metadata_df ->
  columns metadata_df = id_label :: other_labels ->
  values metadata_df = ids :: others ->
  ids = (a ++ Str s1 :: b ++ Str s2 :: c)%list ->
  strip s1 = strip s2 ->
  Forall (fun c => blank c = false) ids ->
  exists df,
    read_metadata_file pd_read_csv fs src = OK df
    /\ ~ NoDup (index df)
    /\ ensure_df_headers_unique df name
       = Raise (ValueError ("Indices of the " +:+ name +:+ " DataFrame are not unique."))
    /\ validate_df df name min_row_ct min_col_ct
       = Raise (ValueError ("Indices of the " +:+ name +:+ " DataFrame are not unique.")).
Proof.
  intros Hq Hr Hc Hv Hids Hs Hnb.
  assert (Hb : existsb blank ids = false).
  { clear - Hnb. induction Hnb as [|x l Hx _ IH]; [reflexivity|]. simpl. now rewrite Hx. }
  exists (mkDataFrame (map normalize_cell ids) other_labels (map (map normalize_cell) others)).
  assert (Hnd : ~ NoDup (map normalize_cell ids)).
  { rewrite Hids, map_app, map_cons, map_app, map_cons.
    replace (normalize_cell (Str s2)) with (normalize_cell (Str s1))
      by (simpl; now rewrite Hs).
    apply NoDup_repeated. }
  split; [|split; [exact Hnd|]].
  - rewrite (read_metadata_file_unfold _ _ _ _ _ _ Hq Hr).
    now rewrite (normalize_metadata_spec _ _ _ _ _ Hc Hv), Hb.
  - assert (He : forall n, ensure_df_headers_unique
                     (mkDataFrame (map normalize_cell ids) other_labels
                                  (map (map normalize_cell) others)) n
                   = Raise (ValueError ("Indices of the " +:+ n +:+ " DataFrame are not unique.")))
      by (intros n; now apply ensure_df_headers_unique_index).
    split; [apply He|]. unfold validate_df. now rewrite He.
Qed.

End loader_facts.

Section normalization_facts.

Lemma lstrip_fixed (sp : ascii -> bool) (s : string) :
  (forall c, head_char s = Some c -> sp c = false) -> lstrip sp s = s.
Proof.
  destruct s as [|x s]; [reflexivity|]. intros H. simpl.
  now rewrite (H x eq_refl).
Qed.

Lemma rstrip_fixed (sp : ascii -> bool) (s : string) :
  (forall c, last_char s = Some c -> sp c = false) -> rstrip sp s = s.
Proof.
  induction s as [|x s IH]; [reflexivity|]. intros H. simpl.
  destruct s as [|y s].
  - simpl. now rewrite (H x eq_refl).
  - rewrite IH; [reflexivity|]. intros c Hc. apply H. exact Hc.
Qed.

Lemma strip_fixed (s : string) : no_outer_space isspace s -> strip s = s.
Proof.
  intros H. unfold strip. rewrite lstrip_fixed by (intros c Hc; apply H; now left).
  apply rstrip_fixed. intros c Hc. apply H. now right.
Qed.

Lemma strip_strip (s : string) : strip (strip s) = strip s.
Proof.
  apply strip_fixed. destruct (strip_split s) as (_ & _ & _ & _ & _ & H). exact H.
Qed.

(** X18: the normalisation of [read_metadata_file] is idempotent.
    Stripping a stripped text changes nothing, and a cell that went
    through [str.strip] and [where(df != "")] is left as it is by a second
    pass; a text that neither starts nor ends with whitespace is its own
    stripped text. *)
Theorem normalization_idempotent (c : cell) (s : string) :
  strip (strip s) = strip s
  /\ where_not_empty (str_strip (where_not_empty (str_strip c)))
     = where_not_empty (str_strip c)
  /\ (no_outer_space isspace s -> strip s = s)
  /\ (s <> "" -> no_outer_space isspace s -> where_not_empty (str_strip (Str s)) = Str s).
Proof.
  split; [apply strip_strip|]. split; [|split; [apply strip_fixed|]].
  - rewrite !normalize_cell_code. destruct c as [|t]; [reflexivity|]. simpl.
    destruct (String.eqb_spec (strip t) "") as [E|E]; [reflexivity|]. simpl.
    rewrite strip_strip. destruct (String.eqb_spec (strip t) ""); [contradiction | reflexivity].
  - intros Hne Hno. rewrite normalize_cell_code. simpl. rewrite (strip_fixed _ Hno).
    destruct (String.eqb_spec s ""); [contradiction | reflexivity].
Qed.

End normalization_facts.

Lemma read_metadata_file_result_witness :
  Forall (fun c => exists t, c = Str t /\ t <> "" /\ no_outer_space isspace t)
         (index (mkDataFrame [Str "s1"; Str "s2"] ["ph"] [[NaN; Str "7"]])).
Proof.
  apply (read_metadata_file_result (fun _ _ _ => OK example_frame) ∅ (StringIO example_text 0)).
  vm_compute. reflexivity.
Defined.

(** Two identifiers that differ by a trailing space only. *)
Lemma read_metadata_file_repeated_id_witness :
  exists df,
    read_metadata_file
      (fun _ _ _ => OK (mkDataFrame [0; 1]%nat ["sampleid"; "ph"]
                                    [[Str "s1"; Str "s1 "]; [Str "6"; Str "7"]]))
      ∅ (StringIO example_text 0) = OK df
    /\ ~ NoDup (index df)
    /\ ensure_df_headers_unique df "sample metadata"
       = Raise (ValueError "Indices of the sample metadata DataFrame are not unique.")
    /\ validate_df df "sample metadata" 1 1
       = Raise (ValueError "Indices of the sample metadata DataFrame are not unique.").
Proof.
  apply (read_metadata_file_repeated_id
           (fun _ _ _ => OK (mkDataFrame [0; 1]%nat ["sampleid"; "ph"]
                                         [[Str "s1"; Str "s1 "]; [Str "6"; Str "7"]]))
           ∅ (StringIO example_text 0) (StringIO example_text 0) [1; 2; 3]%nat
           (mkDataFrame [0; 1]%nat ["sampleid"; "ph"]
                        [[Str "s1"; Str "s1 "]; [Str "6"; Str "7"]])
           "sampleid" ["ph"] [Str "s1"; Str "s1 "] [] [] [] "s1" "s1 " [[Str "6"; Str "7"]]
           "sample metadata" 1 1);
    try reflexivity.
  repeat constructor.
Defined.

(** * The mapping loop and the reconciliation as a whole *)

Section mapping_claim.

Lemma for_each_app {A S : Type} (body : S -> A -> result S) (xs ys : list A) (st : S) :
  for_each body (xs ++ ys) st = (st' ← for_each body xs st; for_each body ys st').
Proof.
  revert st; induction xs as [|x xs IH]; intros st; [reflexivity|].
  rewrite <- app_comm_cons, !for_each_cons.
  destruct (body st x) as [st1|e]; [|reflexivity]. rewrite !bind_OK. apply IH.
Qed.

Lemma build_mapping_app (pre post : list string) (d : gmap string string) (w : list string) :
  build_mapping pre = OK (d, w) ->
  build_mapping (pre ++ post) = for_each mapping_step post (d, w).
Proof. intros Hb. unfold build_mapping in *. now rewrite for_each_app, Hb, bind_OK. Qed.

Lemma for_each_one {A S : Type} (body : S -> A -> result S) (x : A) (st : S) :
  for_each body [x] st = body st x.
Proof. rewrite for_each_cons. now destruct (body st x). Qed.

Lemma key_state_of_Mapped (d : gmap string string) (k f : string) :
  key_state_of d k = Mapped f <-> d !! k = Some f /\ f <> qurro_matching_conflict.
Proof.
  unfold key_state_of. destruct (d !! k) as [v|]; [|split; [discriminate | intros [H _]; discriminate]].
  destruct (String.eqb_spec v qurro_matching_conflict) as [->|Hne]; split.
  - discriminate.
  - intros [[= <-] H]. contradiction.
  - intros [= <-]. auto.
  - intros [[= <-] _]. reflexivity.
Qed.

(** The state of a key after the loop, from the number of identifiers
    read that have it as truncated identifier. *)
Lemma key_state_of_count (fids : list string) (d : gmap string string) (w : list string)
    (k : string) :
  build_mapping fids = OK (d, w) ->
  key_state_of d k = match count_truncated k fids with
                     | O => Unseen
                     | S O => match first_truncated k fids with
                              | Some f => Mapped f
                              | None => Unseen
                              end
                     | S (S _) => Conflicted
                     end.
Proof.
  intros Hb. pose proof (build_mapping_lookup _ _ _ k Hb) as Hd.
  destruct (count_truncated k fids) as [|[|n]] eqn:Hc.
  - now apply key_state_of_Unseen.
  - destruct (first_truncated_is_Some _ _ _ Hc) as [f Hf]. rewrite Hf in *.
    apply key_state_of_Mapped. split; [exact Hd|].
    apply first_truncated_Some in Hf as [_ Hf]. exact (conflict_is_no_feature_id _ _ Hf).
  - now apply key_state_of_Conflicted.
Qed.

(** C3: the loop that builds the mapping, one reference identifier after
    the other.  Let the loop have read the identifiers [pre] and let the
    next identifier [fid] have the truncated identifier [tfid].  Reading
    [fid] does not raise.  It leaves the state of every other key as it
    is.  If [tfid] was unseen, it is now mapped to [fid] and nothing is
    logged; if [tfid] was mapped (to whatever full identifier) or
    conflicted, it is now conflicted, that is, its entry is the sentinel,
    and one warning is logged.  A key that is conflicted stays so whatever
    identifiers follow, and the loop over identifiers that all have a
    truncated identifier never raises.  At each point the state of a key
    is given by the number of identifiers read so far that have it as
    truncated identifier: none, unseen; one, mapped to that identifier;
    two or more, conflicted. *)
Theorem build_mapping_state_machine (pre : list string) (fid tfid : string)
    (d : gmap string string) (warnings : list string) :
  build_mapping pre = OK (d, warnings) ->
  get_truncated_feature_id fid = OK tfid ->
  exists d' warnings',
    build_mapping (pre ++ [fid]) = OK (d', warnings')
    /\ (forall k, k <> tfid -> d' !! k = d !! k)
    /\ match key_state_of d tfid with
       | Unseen => key_state_of d' tfid = Mapped fid /\ warnings' = warnings
       | Mapped _ | Conflicted =>
           key_state_of d' tfid = Conflicted
           /\ d' !! tfid = Some qurro_matching_conflict
           /\ warnings' = (warnings ++ [collision_warning tfid])%list
       end
    /\ (forall post d_end warnings_end k,
          build_mapping (pre ++ fid :: post) = OK (d_end, warnings_end) ->
          key_state_of d' k = Conflicted -> key_state_of d_end k = Conflicted)
    /\ (forall post,
          Forall (fun g => exists t, get_truncated_feature_id g = OK t) post ->
          exists d_end warnings_end,
            build_mapping (pre ++ fid :: post) = OK (d_end, warnings_end))
    /\ (forall k,
          key_state_of d k = match count_truncated k pre with
                             | O => Unseen
                             | S O => match first_truncated k pre with
                                      | Some f => Mapped f
                                      | None => Unseen
                                      end
                             | S (S _) => Conflicted
                             end)
    /\ (forall k,
          key_state_of d' k = match count_truncated k (pre ++ [fid]) with
                              | O => Unseen
                              | S O => match first_truncated k (pre ++ [fid]) with
                                       | Some f => Mapped f
                                       | None => Unseen
                                       end
                              | S (S _) => Conflicted
                              end).
Proof.
  intros Hb Ht.
  pose proof (conflict_is_no_feature_id fid tfid Ht) as Hne.
  assert (Hstep : build_mapping (pre ++ [fid])
                  = OK (match d !! tfid with
                        | None => (<[tfid := fid]> d, warnings)
                        | Some _ => (<[tfid := qurro_matching_conflict]> d,
                                     (warnings ++ [collision_warning tfid])%list)
                        end)).
  { rewrite (build_mapping_app _ _ _ _ Hb), for_each_one. now apply mapping_step_OK. }
  assert (Hrest : forall post st', build_mapping (pre ++ [fid]) = OK st' ->
            build_mapping (pre ++ fid :: post) = for_each mapping_step post st').
  { intros post [d1 w1] H1. rewrite (app_assoc pre [fid] post : (pre ++ fid :: post = (pre ++ [fid]) ++ post)%list).
    exact (build_mapping_app _ _ _ _ H1). }
  destruct (d !! tfid) as [v|] eqn:E.
  - exists (<[tfid := qurro_matching_conflict]> d), (warnings ++ [collision_warning tfid])%list.
    split; [exact Hstep|]. split; [|split; [|split; [|split; [|split]]]].
    + intros k Hk. now rewrite lookup_insert_ne by congruence.
    + unfold key_state_of at 1. rewrite E.
      destruct (String.eqb v qurro_matching_conflict);
        (split; [apply key_state_of_insert_conflict
                | split; [apply lookup_insert_eq | reflexivity]]).
    + intros post d_end w_end k Hend Hk. rewrite (Hrest _ _ Hstep) in Hend.
      exact (for_each_conflicted_stays _ _ _ k Hend Hk).
    + intros post Hwf. rewrite (Hrest _ _ Hstep).
      destruct (for_each_well_formed post
                  (<[tfid := qurro_matching_conflict]> d,
                   (warnings ++ [collision_warning tfid])%list)) as [[d2 w2] H2]; [|eauto].
      intros f Hf. rewrite Forall_forall in Hwf. now apply Hwf.
    + intros k. exact (key_state_of_count _ _ _ k Hb).
    + intros k. exact (key_state_of_count _ _ _ k Hstep).
  - exists (<[tfid := fid]> d), warnings.
    split; [exact Hstep|]. split; [|split; [|split; [|split; [|split]]]].
    + intros k Hk. now rewrite lookup_insert_ne by congruence.
    + unfold key_state_of at 1. rewrite E.
      split; [now apply key_state_of_insert_full | reflexivity].
    + intros post d_end w_end k Hend Hk. rewrite (Hrest _ _ Hstep) in Hend.
      exact (for_each_conflicted_stays _ _ _ k Hend Hk).
    + intros post Hwf. rewrite (Hrest _ _ Hstep).
      destruct (for_each_well_formed post (<[tfid := fid]> d, warnings)) as [[d2 w2] H2];
        [|eauto].
      intros f Hf. rewrite Forall_forall in Hwf. now apply Hwf.
    + intros k. exact (key_state_of_count _ _ _ k Hb).
    + intros k. exact (key_state_of_count _ _ _ k Hstep).
Qed.

End mapping_claim.

(** The loop has read [1.00001;2.00001]; the key [1.0000;2.0000] is mapped
    to it.  Reading [1.00002;2.00002] makes the key conflicted and logs
    one warning, and it is still conflicted after [5.5;6.6] is read. *)
Lemma build_mapping_state_machine_witness :
  exists d' warnings',
    build_mapping ["1.00001;2.00001"; "1.00002;2.00002"] = OK (d', warnings')
    /\ key_state_of d' "1.0000;2.0000" = Conflicted
    /\ warnings' = [collision_warning "1.0000;2.0000"]
    /\ exists d_end warnings_end,
         build_mapping example_ranks_index = OK (d_end, warnings_end)
         /\ key_state_of d_end "1.0000;2.0000" = Conflicted.
Proof.
  destruct (build_mapping_state_machine ["1.00001;2.00001"] "1.00002;2.00002" "1.0000;2.0000"
              {[ "1.0000;2.0000" := "1.00001;2.00001" ]} [])
    as (d' & w' & Hstep & _ & Htrans & Hstay & Htotal & _).
  - vm_compute. reflexivity.
  - vm_compute. reflexivity.
  - change (key_state_of {[ "1.0000;2.0000" := "1.00001;2.00001" ]} "1.0000;2.0000")
      with (Mapped "1.00001;2.00001") in Htrans.
    destruct Htrans as (Hc & _ & Hw).
    exists d', w'. split; [exact Hstep|]. split; [exact Hc|]. split; [exact Hw|].
    destruct (Htotal ["5.5;6.6"]) as (d_end & w_end & Hend).
    + repeat constructor. eexists. vm_compute. reflexivity.
    + exists d_end, w_end. split; [exact Hend|]. exact (Hstay _ _ _ _ Hend Hc).
Defined.

Section reconcile_claim.

(** C1, as stated, fails: for the example with one more external row, a
    row whose truncated identifier no reference identifier has, the
    lookup of that row raises a [KeyError].  No row is dropped and none is
    indexed by its full identifier: nothing is returned. *)
Lemma reconcile_drops_conflicts_unmatched :
  reconcile example_ranks_index example_metadata_df_unmatched
  = Raise (KeyError "7.2500;8.5000")
  /\ ~ exists df warnings,
         reconcile example_ranks_index example_metadata_df_unmatched = OK (df, warnings).
Proof.
  split; [vm_compute; reflexivity|].
  intros (df & w & H). vm_compute in H. discriminate.
Qed.

(** C1, amended: a call whose reference identifiers all have a truncated
    identifier.  The mapping is built.  If some external row has a
    truncated identifier that no reference identifier has, the call fails
    with the [KeyError] of the first such row.  If every external row has
    a truncated identifier that some reference identifier has, every row
    resolves to the entry of its truncated identifier, [reconcile] drops
    exactly the rows that resolve to the conflict sentinel and labels the
    other rows, in their order, with the full identifier they resolve to;
    it raises a [ValueError] if a full identifier then occurs twice, and
    otherwise returns these rows with their [LibraryID] and the warnings
    of the loop.  If two or more reference identifiers have the truncated
    identifier [k], every row with truncated identifier [k] resolves to
    the sentinel and is dropped; if exactly one reference identifier [f]
    has it, every row with truncated identifier [k] resolves to [f] and is
    kept. *)
Theorem reconcile_drops_conflicts
    (feature_ranks_index : list string) (metadata_df : list gnps_row) :
  Forall (fun g => exists t, get_truncated_feature_id g = OK t) feature_ranks_index ->
  exists d warnings,
    build_mapping feature_ranks_index = OK (d, warnings)
    /\ (forall pre row post,
          metadata_df = (pre ++ row :: post)%list ->
          Forall (fun r => count_truncated (qurro_trunc_feature_id r) feature_ranks_index
                           <> 0%nat) pre ->
          count_truncated (qurro_trunc_feature_id row) feature_ranks_index = 0%nat ->
          reconcile feature_ranks_index metadata_df
          = Raise (KeyError (qurro_trunc_feature_id row)))
    /\ (Forall (fun r => count_truncated (qurro_trunc_feature_id r) feature_ranks_index
                         <> 0%nat) metadata_df ->
        let kept := filter (fun r => qurro_full_feature_id d r <> qurro_matching_conflict)
                           metadata_df in
        (forall r, r ∈ metadata_df ->
                   d !! qurro_trunc_feature_id r = Some (qurro_full_feature_id d r))
        /\ (NoDup (map (qurro_full_feature_id d) kept) ->
            reconcile feature_ranks_index metadata_df
            = OK (mkDataFrame (map (qurro_full_feature_id d) kept) ["LibraryID"]
                              [map (fun r => Str (LibraryID r)) kept], warnings))
        /\ (~ NoDup (map (qurro_full_feature_id d) kept) ->
            reconcile feature_ranks_index metadata_df
            = Raise (ValueError "Index has duplicate keys"))
        /\ (forall k r,
              (2 <= count_truncated k feature_ranks_index)%nat ->
              r ∈ metadata_df -> qurro_trunc_feature_id r = k ->
              qurro_full_feature_id d r = qurro_matching_conflict /\ r ∉ kept)
        /\ (forall k f r,
              count_truncated k feature_ranks_index = 1%nat ->
              f ∈ feature_ranks_index -> get_truncated_feature_id f = OK k ->
              r ∈ metadata_df -> qurro_trunc_feature_id r = k ->
              qurro_full_feature_id d r = f /\ r ∈ kept)).
Proof.
  intros Hwf. apply build_mapping_OK_iff in Hwf as (d & w & Hb).
  exists d, w. split; [exact Hb|]. split.
  - intros pre row post Hmd Hpre Hrow.
    assert (Hl : apply_lookup d (map qurro_trunc_feature_id metadata_df)
                 = Raise (KeyError (qurro_trunc_feature_id row))).
    { apply apply_lookup_rows_Raise. exists pre, row, post. split; [exact Hmd|].
      split; [now apply (Forall_matched _ _ _ _ Hb)|].
      split; [now apply (build_mapping_None _ _ _ _ Hb) | reflexivity]. }
    unfold reconcile. rewrite Hb, bind_OK. cbv beta iota. now rewrite Hl.
  - intros Hall kept. apply (Forall_matched _ _ _ _ Hb) in Hall.
    pose proof (reconcile_matched _ _ _ _ Hb Hall) as Hrec. cbv zeta in Hrec. fold kept in Hrec.
    assert (Hres : forall r, r ∈ metadata_df ->
              d !! qurro_trunc_feature_id r = Some (qurro_full_feature_id d r)).
    { intros r Hr. rewrite Forall_forall in Hall. destruct (Hall r Hr) as [f Hf].
      unfold qurro_full_feature_id. now rewrite Hf. }
    split; [exact Hres|]. split; [|split; [|split]].
    + intros Hnd. rewrite Hrec. now rewrite bool_decide_eq_true_2.
    + intros Hnd. rewrite Hrec. now rewrite bool_decide_eq_false_2.
    + intros k r Hk Hr Hkr.
      assert (Hs : qurro_full_feature_id d r = qurro_matching_conflict).
      { pose proof (Hres r Hr) as Hd.
        rewrite Hkr, (build_mapping_conflict _ _ _ k Hb Hk) in Hd. congruence. }
      split; [exact Hs|]. intros Hin. apply list_elem_of_filter in Hin as [Hne _].
      contradiction.
    + intros k f r Hk Hf Hfk Hr Hkr.
      assert (Hs : qurro_full_feature_id d r = f).
      { pose proof (Hres r Hr) as Hd.
        rewrite Hkr, (build_mapping_unique _ _ _ k f Hb Hk Hf Hfk) in Hd. congruence. }
      split; [exact Hs|]. apply list_elem_of_filter. split; [|exact Hr].
      rewrite Hs. exact (conflict_is_no_feature_id f k Hfk).
Qed.

End reconcile_claim.

(** The example of the description: the two rows with the ambiguous
    truncated identifier are dropped, the third is kept under [5.5;6.6],
    and the collision is logged once. *)
Lemma reconcile_drops_conflicts_witness :
  reconcile example_ranks_index example_metadata_df
  = OK (mkDataFrame ["5.5;6.6"] ["LibraryID"] [[Str "lib C"]],
        [collision_warning "1.0000;2.0000"]).
Proof.
  destruct (reconcile_drops_conflicts example_ranks_index example_metadata_df)
    as (d & w & Hb & _ & Hmain).
  - repeat constructor; eexists; vm_compute; reflexivity.
  - assert (Hd : OK (d, w)
                 = OK (<["5.5000;6.6000" := "5.5;6.6"]>
                         (<["1.0000;2.0000" := qurro_matching_conflict]> ∅),
                       [collision_warning "1.0000;2.0000"]))
      by (rewrite <- Hb; vm_compute; reflexivity).
    injection Hd as -> ->.
    destruct Hmain as (_ & Hok & _).
    + repeat constructor; vm_compute; discriminate.
    + rewrite Hok; [vm_compute; reflexivity|].
      apply (bool_decide_unpack _). vm_compute. exact I.
Defined.
